(** * FormBuilder: validation engine, derived-field evaluator, form session,
      field editor and saved-forms store

    A shallow embedding of the TypeScript sources
    ([utils/validation.ts], [utils/storage.ts], the [FormBuilder] and
    [FormPreview] classes and the [DynamicFormBuilder] React component),
    followed by the properties proved about them.

    Conventions of the embedding:
    - a JavaScript string is a [string]; every [ascii] stands for one
      UTF-16 code unit in the range 0..255;
    - a JavaScript object used as a dictionary ([FormData], [FormErrors],
      [localStorage]) is a [gmap] keyed by strings; reading a missing key
      gives [undefined];
    - regular expressions of the source are terms of [regex], run by a
      derivative matcher;
    - what only the JavaScript engine knows (the decimal rendering of a
      double, the evaluation of a formula by [Function], the storage quota)
      is the content of the classes [Engine] and [Quota]. *)

From Stdlib Require Import String Ascii ZArith Lia List Bool.
From stdpp Require Import base strings list gmap.

Set Default Proof Using "Type".

(* string concatenation unfolds on a constructor, as list append does *)
Arguments String.append !s1 s2 : simpl nomatch.

(* ================================================================== *)
(** * Part I: the program                                              *)
(* ================================================================== *)

(** ** Characters and strings *)

Definition code (c : ascii) : nat := nat_of_ascii c.

Definition in_range (lo hi : nat) (c : ascii) : bool :=
  (lo <=? code c)%nat && (code c <=? hi)%nat.

(** [\d] *)
Definition is_digit (c : ascii) : bool := in_range 48 57 c.

(** [\s] restricted to code units below 256: TAB, LF, VT, FF, CR, SP, NBSP. *)
Definition is_space (c : ascii) : bool :=
  in_range 9 13 c || (code c =? 32)%nat || (code c =? 160)%nat.

(** Line terminators below 256 (what [.] refuses): LF and CR. *)
Definition is_line_terminator (c : ascii) : bool :=
  (code c =? 10)%nat || (code c =? 13)%nat.

Definition is_char (a : ascii) (c : ascii) : bool := Ascii.eqb a c.

Definition one_of (cs : string) (c : ascii) : bool :=
  existsb (Ascii.eqb c) (list_ascii_of_string cs).

Fixpoint string_forall (p : ascii -> bool) (s : string) : bool :=
  match s with
  | EmptyString => true
  | String c s' => p c && string_forall p s'
  end.

Fixpoint string_exists (p : ascii -> bool) (s : string) : bool :=
  match s with
  | EmptyString => false
  | String c s' => p c || string_exists p s'
  end.

(** JavaScript truthiness of a string: [!!s]. *)
Definition nonempty (s : string) : bool :=
  match s with EmptyString => false | String _ _ => true end.

(** [xs.join(sep)] on an array of strings. *)
Fixpoint join (sep : string) (xs : list string) : string :=
  match xs with
  | [] => ""
  | [x] => x
  | x :: rest => x +:+ sep +:+ join sep rest
  end.

(** [s.trimEnd()] *)
Fixpoint trimEnd (s : string) : string :=
  match s with
  | EmptyString => ""
  | String c s' =>
      match trimEnd s' with
      | EmptyString => if is_space c then "" else String c ""
      | rest => String c rest
      end
  end.

(** [s.trimStart()] *)
Fixpoint trimStart (s : string) : string :=
  match s with
  | EmptyString => ""
  | String c s' => if is_space c then trimStart s' else s
  end.

(** [s.trim()] *)
Definition trim (s : string) : string := trimEnd (trimStart s).

(** [s.split(sep)] for a separator of one character: the pieces between
    the separators, of which there is always at least one. *)
Fixpoint split (sep : ascii) (s : string) : list string :=
  match s with
  | EmptyString => [""]
  | String c s' =>
      if Ascii.eqb c sep then "" :: split sep s'
      else match split sep s' with
           | piece :: rest => String c piece :: rest
           | [] => [String c ""]
           end
  end.

(** [value.split(',').map(s => s.trim()).filter(s => s)] *)
Definition parse_options (value : string) : list string :=
  List.filter nonempty (map trim (split "," value)).

(** ** Regular expressions *)

Inductive regex : Type :=
| Void
| Eps
| Class (p : ascii -> bool)
| Seq (r1 r2 : regex)
| Alt (r1 r2 : regex)
| Star (r : regex).

Definition Plus (r : regex) : regex := Seq r (Star r).
Definition Opt (r : regex) : regex := Alt Eps r.

(** The literal text [s] as a regular expression. *)
Fixpoint Lit (s : string) : regex :=
  match s with
  | EmptyString => Eps
  | String c s' => Seq (Class (is_char c)) (Lit s')
  end.

Fixpoint nullable (r : regex) : bool :=
  match r with
  | Void => false
  | Eps => true
  | Class _ => false
  | Seq r1 r2 => nullable r1 && nullable r2
  | Alt r1 r2 => nullable r1 || nullable r2
  | Star _ => true
  end.

Fixpoint deriv (c : ascii) (r : regex) : regex :=
  match r with
  | Void => Void
  | Eps => Void
  | Class p => if p c then Eps else Void
  | Seq r1 r2 =>
      if nullable r1
      then Alt (Seq (deriv c r1) r2) (deriv c r2)
      else Seq (deriv c r1) r2
  | Alt r1 r2 => Alt (deriv c r1) (deriv c r2)
  | Star r1 => Seq (deriv c r1) (Star r1)
  end.

(** [/^r$/.test(s)]: the whole of [s] is in the language of [r]. *)
Fixpoint matches (r : regex) (s : string) : bool :=
  match s with
  | EmptyString => nullable r
  | String c s' => matches (deriv c r) s'
  end.

(** The first [n] characters of [s]. *)
Fixpoint take_chars (n : nat) (s : string) : string :=
  match n, s with
  | S n', String c s' => String c (take_chars n' s')
  | _, _ => ""
  end.

(** The length of the longest prefix of [s] that is in the language of
    [r], if there is such a prefix. *)
Fixpoint longest_match (r : regex) (s : string) : option nat :=
  match s with
  | EmptyString => if nullable r then Some 0 else None
  | String c s' =>
      match longest_match (deriv c r) s' with
      | Some n => Some (S n)
      | None => if nullable r then Some 0 else None
      end
  end.

Definition longest_prefix (r : regex) (s : string) : option string :=
  option_map (fun n => take_chars n s) (longest_match r s).

(** The language of a regular expression. *)
Inductive lang : regex -> string -> Prop :=
| lang_eps : lang Eps ""
| lang_class p c : p c = true -> lang (Class p) (String c "")
| lang_seq r1 r2 s1 s2 :
    lang r1 s1 -> lang r2 s2 -> lang (Seq r1 r2) (s1 +:+ s2)
| lang_alt_l r1 r2 s : lang r1 s -> lang (Alt r1 r2) s
| lang_alt_r r1 r2 s : lang r2 s -> lang (Alt r1 r2) s
| lang_star_nil r : lang (Star r) ""
| lang_star_cons r s1 s2 :
    lang r s1 -> lang (Star r) s2 -> lang (Star r) (s1 +:+ s2).

(** ** Field model ([types/form.types.ts]) *)

Inductive FieldType : Type :=
| text | number | textarea | select | radio | checkbox | date.

Inductive ValidationType : Type :=
| required | minLength | maxLength | email | password.

#[export] Instance FieldType_eq_dec : EqDecision FieldType.
Proof. solve_decision. Defined.

#[export] Instance ValidationType_eq_dec : EqDecision ValidationType.
Proof. solve_decision. Defined.

(** [interface ValidationRule { type; value?: number; message }] *)
Record ValidationRule : Type := {
  rule_type : ValidationType;
  rule_value : option Z;
  rule_message : string
}.

(** What a form holds for a field: [string | string[]], or [undefined] when
    the key is missing. *)
Inductive FieldValue : Type :=
| VUndefined
| VStr (s : string)
| VArr (xs : list string).

Record FormField : Type := {
  field_id : string;
  field_type : FieldType;
  field_label : string;
  field_required : bool;
  defaultValue : FieldValue;
  validations : list ValidationRule;
  options : list string;
  isDerived : bool;
  derivedFormula : string;
  derivedFrom : list string
}.

Record FormSchema : Type := {
  form_id : string;
  form_name : string;
  fields : list FormField;
  createdAt : string
}.

#[export] Instance ValidationRule_eq_dec : EqDecision ValidationRule.
Proof. solve_decision. Defined.

#[export] Instance FieldValue_eq_dec : EqDecision FieldValue.
Proof. solve_decision. Defined.

#[export] Instance FormField_eq_dec : EqDecision FormField.
Proof. solve_decision. Defined.

#[export] Instance FormSchema_eq_dec : EqDecision FormSchema.
Proof. solve_decision. Defined.

(** [interface FormData] and [interface FormErrors] *)
Abbreviation FormData := (gmap string FieldValue).
Abbreviation FormErrors := (gmap string string).

(** [formData[id]] *)
Definition get (formData : FormData) (id : string) : FieldValue :=
  default VUndefined (formData !! id).

(** JavaScript truthiness of a field value: the empty string and
    [undefined] are falsy, every array is truthy. *)
Definition truthy (value : FieldValue) : bool :=
  match value with
  | VUndefined => false
  | VStr s => nonempty s
  | VArr _ => true
  end.

(** [String(value)] *)
Definition js_String (value : FieldValue) : string :=
  match value with
  | VUndefined => "undefined"
  | VStr s => s
  | VArr xs => join "," xs
  end.

(** ** Validation engine ([utils/validation.ts], and the same functions
       inlined in the component) *)

(** [rule.value || 0] *)
Definition threshold (rule : ValidationRule) : Z := default 0%Z (rule_value rule).

(** [[^\s@]] *)
Definition not_space_at (c : ascii) : bool := negb (is_space c || is_char "@" c).

(** [/^[^\s@]+@[^\s@]+\.[^\s@]+$/] *)
Definition email_regex : regex :=
  Seq (Plus (Class not_space_at))
      (Seq (Class (is_char "@"))
           (Seq (Plus (Class not_space_at))
                (Seq (Class (is_char ".")) (Plus (Class not_space_at))))).

(** [/\d/.test(s)]: some digit occurs in [s]. *)
Definition has_digit (s : string) : bool := string_exists is_digit s.

Definition validateRequired (rule : ValidationRule) (value : FieldValue) : string :=
  if negb (truthy value)
     || match value with VArr xs => (length xs =? 0)%nat | _ => false end
  then rule_message rule else "".

Definition validateMinLength (rule : ValidationRule) (value : FieldValue) : string :=
  if match value with
     | VStr s => (Z.of_nat (String.length s) <? threshold rule)%Z
     | _ => false
     end
  then rule_message rule else "".

Definition validateMaxLength (rule : ValidationRule) (value : FieldValue) : string :=
  if match value with
     | VStr s => (Z.of_nat (String.length s) >? threshold rule)%Z
     | _ => false
     end
  then rule_message rule else "".

Definition validateEmail (rule : ValidationRule) (value : FieldValue) : string :=
  if match value with
     | VStr s => nonempty s && negb (matches email_regex s)
     | _ => false
     end
  then rule_message rule else "".

Definition validatePassword (rule : ValidationRule) (value : FieldValue) : string :=
  if match value with
     | VStr s => nonempty s && ((String.length s <? 8)%nat || negb (has_digit s))
     | _ => false
     end
  then rule_message rule else "".

Definition validateRule (rule : ValidationRule) (value : FieldValue) : string :=
  match rule_type rule with
  | required => validateRequired rule value
  | minLength => validateMinLength rule value
  | maxLength => validateMaxLength rule value
  | email => validateEmail rule value
  | password => validatePassword rule value
  end.

(** The [for (const validation of field.validations)] loop. *)
Fixpoint validateRules (rules : list ValidationRule) (value : FieldValue) : string :=
  match rules with
  | [] => ""
  | validation :: rest =>
      let error := validateRule validation value in
      if nonempty error then error else validateRules rest value
  end.

Definition validateField (field : FormField) (value : FieldValue) : string :=
  validateRules (validations field) value.

(** The same loop, also returning the rules on which [validateRule] was
    called, in the order of the calls. *)
Fixpoint validateRules_calls (rules : list ValidationRule) (value : FieldValue)
    : string * list ValidationRule :=
  match rules with
  | [] => ("", [])
  | validation :: rest =>
      let error := validateRule validation value in
      if nonempty error then (error, [validation])
      else let '(e, calls) := validateRules_calls rest value in
           (e, validation :: calls)
  end.

Definition validateForm (fields : list FormField) (formData : FormData) : FormErrors :=
  fold_left
    (fun errors field =>
       let value := get formData (field_id field) in
       let error := validateField field value in
       if nonempty error then <[field_id field := error]> errors else errors)
    fields ∅.

(** [Object.values(errors).some(error => error !== '')] *)
Definition hasErrors (errors : FormErrors) : bool :=
  existsb (fun entry => nonempty (snd entry)) (map_to_list errors).

(** The failure conditions of the rule kinds, as the specification tabulates
    them: "condition for failure". *)
Definition rule_fails (rule : ValidationRule) (value : FieldValue) : bool :=
  match rule_type rule, value with
  | required, VStr s => negb (nonempty s)
  | required, VArr xs => (length xs =? 0)%nat
  | required, VUndefined => true
  | minLength, VStr s => (Z.of_nat (String.length s) <? threshold rule)%Z
  | maxLength, VStr s => (Z.of_nat (String.length s) >? threshold rule)%Z
  | email, VStr s => nonempty s && negb (matches email_regex s)
  | password, VStr s =>
      nonempty s && ((String.length s <? 8)%nat || negb (has_digit s))
  | _, _ => false
  end.

(** The first rule of the list whose failure condition holds. *)
Definition first_failing (rules : list ValidationRule) (value : FieldValue)
    : option ValidationRule :=
  List.find (fun rule => rule_fails rule value) rules.

(** [local@domain.tld]: three non-empty parts free of white space and of
    [@], separated by one [@] and one dot. *)
Definition is_part (s : string) : Prop :=
  s <> ""%string /\ string_forall not_space_at s = true.

Definition local_at_domain_tld (s : string) : Prop :=
  exists loc dom tld,
    s = loc +:+ "@" +:+ dom +:+ "." +:+ tld /\
    is_part loc /\ is_part dom /\ is_part tld.

(** A rule reports an error exactly when it fails with a message that is
    not empty. *)
Definition reports (value : FieldValue) (rule : ValidationRule) : Prop :=
  rule_fails rule value = true /\ rule_message rule <> ""%string.

(** The field does not pass its validations on the value the map has
    for it. *)
Definition field_fails (formData : FormData) (field : FormField) : bool :=
  nonempty (validateField field (get formData (field_id field))).

(** ** Effects

    What the operations below do besides changing their state, in the
    order in which it happens. *)

Inductive Effect : Type :=
| Alert (msg : string)
| AlertSubmitted (formData : FormData)
| RenderFields
| RenderPreview
| NotifyFormChange
| Evaluated (formula : string)
| ConsoleLog (label : string).

(** ** Derived-field evaluator *)

(** What the embedding takes from the JavaScript engine. *)
Class Engine : Type := {
  (** [Number.prototype.toString] of the double that a [StrDecimalLiteral]
      denotes: ["3"] gives ["3"], ["3.50"] gives ["3.5"]. *)
  show_number : string -> string;
  (** [Function('"use strict"; return (' + formula + ')')().toString()], or
      [None] when building or calling the function, or [toString], throws. *)
  run_formula : string -> option string
}.

(** *** The numeric grammar of ECMAScript (StringNumericLiteral) *)

Definition digit : regex := Class is_digit.
Definition sign : regex := Class (one_of "+-").
Definition white : regex := Class is_space.

Definition ExponentPart : regex :=
  Seq (Class (one_of "eE")) (Seq (Opt sign) (Plus digit)).

Definition StrUnsignedDecimalLiteral : regex :=
  Alt (Lit "Infinity")
 (Alt (Seq (Plus digit) (Seq (Lit ".") (Seq (Star digit) (Opt ExponentPart))))
 (Alt (Seq (Lit ".") (Seq (Plus digit) (Opt ExponentPart)))
      (Seq (Plus digit) (Opt ExponentPart)))).

Definition StrDecimalLiteral : regex := Seq (Opt sign) StrUnsignedDecimalLiteral.

Definition is_hex_digit (c : ascii) : bool :=
  is_digit c || in_range 97 102 c || in_range 65 70 c.

Definition NonDecimalIntegerLiteral : regex :=
  Seq (Lit "0")
      (Alt (Seq (Class (one_of "bB")) (Plus (Class (in_range 48 49))))
      (Alt (Seq (Class (one_of "oO")) (Plus (Class (in_range 48 55))))
           (Seq (Class (one_of "xX")) (Plus (Class is_hex_digit))))).

Definition StrNumericLiteral : regex := Alt StrDecimalLiteral NonDecimalIntegerLiteral.

Definition StringNumericLiteral : regex :=
  Seq (Star white) (Opt (Seq StrNumericLiteral (Star white))).

(** [isNaN(Number(value))] on a string or an array of strings: the text of
    the value is not a StringNumericLiteral. *)
Definition isNaN_Number (value : FieldValue) : bool :=
  negb (matches StringNumericLiteral (js_String value)).

(** The numbers the substitution handles: [NaN], the constant [0] of the
    source, and what [parseFloat] reads from a decimal literal. *)
Inductive JSNumber : Type :=
| NaN
| Zero
| Parsed (literal : string).

(** [parseFloat(s)]: the longest prefix of the trimmed text that is a
    StrDecimalLiteral, [NaN] when there is none. *)
Definition parseFloat (s : string) : JSNumber :=
  match longest_prefix StrDecimalLiteral (trimStart s) with
  | Some literal => Parsed literal
  | None => NaN
  end.

(** [n.toString()] *)
Definition toString `{Engine} (n : JSNumber) : string :=
  match n with
  | NaN => "NaN"
  | Zero => "0"
  | Parsed literal => show_number literal
  end.

(** [isNaN(Number(fieldValue)) ? 0 : parseFloat(String(fieldValue))] *)
Definition numericValue (fieldValue : FieldValue) : JSNumber :=
  if isNaN_Number fieldValue then Zero else parseFloat (js_String fieldValue).

(** [value || ''] *)
Definition or_empty (value : FieldValue) : FieldValue :=
  if truthy value then value else VStr "".

(** *** Global replacement by a regular expression of fixed length

    The regular expressions built from labels are sequences of one-character
    matchers, so a [pattern] is the list of these matchers. *)

Definition pattern : Type := list (ascii -> bool).

(** What follows the match when [pat] matches at the start of [s]. *)
Fixpoint match_at (pat : pattern) (s : string) : option string :=
  match pat with
  | [] => Some s
  | p :: pat' =>
      match s with
      | String c s' => if p c then match_at pat' s' else None
      | EmptyString => None
      end
  end.

(** [s.replace(new RegExp(pat, 'g'), repl)] for a replacement text without
    [$]: matches are looked for from left to right and do not overlap, and
    after an empty match the search moves on by one character. *)
Fixpoint replace_fuel (fuel : nat) (pat : pattern) (repl s : string) : string :=
  match fuel with
  | O => s
  | S fuel' =>
      match match_at pat s with
      | Some rest =>
          match pat with
          | [] =>
              match s with
              | EmptyString => repl
              | String c s' => repl +:+ String c (replace_fuel fuel' pat repl s')
              end
          | _ :: _ => repl +:+ replace_fuel fuel' pat repl rest
          end
      | None =>
          match s with
          | EmptyString => ""
          | String c s' => String c (replace_fuel fuel' pat repl s')
          end
      end
  end.

Definition replace_all (pat : pattern) (repl s : string) : string :=
  replace_fuel (S (String.length s)) pat repl s.

(** The pattern that matches the text [s] and nothing else. *)
Definition literal (s : string) : pattern := map is_char (list_ascii_of_string s).

(** [[.*+?^${}()|[\]\\]] *)
Definition is_regex_special (c : ascii) : bool := one_of ".*+?^${}()|[]\" c.

(** [.] *)
Definition any_char (c : ascii) : bool := negb (is_line_terminator c).

(** The component: [f.label.replace(/[.*+?^${}()|[\]\\]/g, '\\$&')] puts a
    backslash before every special character, so that the regular
    expression matches the label as it is written. *)
Definition escapeLabel (label : string) : pattern := literal label.

(** The class: the replacement text is
    ['\\### Continue with remaining files...'], so every special character
    of the label becomes [\#], the text [## Continue with remaining files]
    and three dots, each of which matches any character. *)
Definition escapeLabel_class (label : string) : pattern :=
  flat_map
    (fun c =>
       if is_regex_special c
       then literal "### Continue with remaining files" ++ [any_char; any_char; any_char]
       else [is_char c])
    (list_ascii_of_string label).

(** [/^[\d+\-*/(). ]+$/] *)
Definition is_formula_char (c : ascii) : bool := is_digit c || one_of "+-*/(). " c.
Definition formula_whitelist : regex := Plus (Class is_formula_char).

Section Evaluator.
Context `{Engine}.
Variable escape : string -> pattern.

(** The inner [forEach]: the labels of the other fields are replaced, in
    the order of the fields, by the text of their numeric values. *)
Definition substituteLabels (fields : list FormField) (field : FormField)
    (data : FormData) : string :=
  fold_left
    (fun formula f =>
       if negb (String.eqb (field_id f) (field_id field)) then
         let fieldValue := or_empty (get data (field_id f)) in
         replace_all (escape (field_label f)) (toString (numericValue fieldValue)) formula
       else formula)
    fields (derivedFormula field).

(** The body of the outer [forEach] for one field. *)
Definition recomputeField (fields : list FormField)
    (state : FormData * list Effect) (field : FormField)
    : FormData * list Effect :=
  let '(data, log) := state in
  if isDerived field && nonempty (derivedFormula field) then
    let formula := substituteLabels fields field data in
    if matches formula_whitelist formula then
      match run_formula formula with
      | Some result =>
          (<[field_id field := VStr result]> data, log ++ [Evaluated formula])
      | None =>
          (data, log ++ [Evaluated formula; ConsoleLog (field_label field)])
      end
    else (data, log)
  else (data, log).

(** One pass over all the fields of the form. *)
Definition recompute (fields : list FormField) (data : FormData)
    : FormData * list Effect :=
  fold_left (recomputeField fields) fields (data, []).

(** The value map when the pass reaches the field that follows [pre]. *)
Definition data_after (fields pre : list FormField) (data : FormData) : FormData :=
  fst (fold_left (recomputeField fields) pre (data, [])).
End Evaluator.

(** ** Record updates ([{ ...x, key: value }] and [x.key = value]) *)

Definition set_validations (field : FormField) (value : list ValidationRule) : FormField :=
  {| field_id := field_id field; field_type := field_type field;
     field_label := field_label field; field_required := field_required field;
     defaultValue := defaultValue field; validations := value;
     options := options field; isDerived := isDerived field;
     derivedFormula := derivedFormula field; derivedFrom := derivedFrom field |}.

Definition set_fields (form : FormSchema) (value : list FormField) : FormSchema :=
  {| form_id := form_id form; form_name := form_name form;
     fields := value; createdAt := createdAt form |}.

Definition set_options (field : FormField) (value : list string) : FormField :=
  {| field_id := field_id field; field_type := field_type field;
     field_label := field_label field; field_required := field_required field;
     defaultValue := defaultValue field; validations := validations field;
     options := value; isDerived := isDerived field;
     derivedFormula := derivedFormula field; derivedFrom := derivedFrom field |}.

(** [field.type === 'checkbox' ? [] : ''] *)
Definition initial_value (field : FormField) : FieldValue :=
  match field_type field with
  | checkbox => VArr []
  | _ => VStr ""
  end.

(** The value map that [initializeFormData] builds from the fields. *)
Definition initial_data (fs : list FormField) : FormData :=
  fold_left (fun data field => <[field_id field := initial_value field]> data) fs ∅.

(** The selection after a click on the box of [option]: a checked option
    is added at the end unless it is there, an unchecked one is taken out. *)
Definition toggle (option : string) (checked : bool) (currentValues : list string)
    : list string :=
  if checked then
    if existsb (String.eqb option) currentValues then currentValues
    else currentValues ++ [option]
  else List.filter (fun item => negb (String.eqb item option)) currentValues.

(** ** Form session: the [FormPreview] class *)

Module FormPreview.

Record State : Type := {
  form : FormSchema;
  formData : FormData;
  formErrors : FormErrors
}.

Definition set_formData (st : State) (value : FormData) : State :=
  {| form := form st; formData := value; formErrors := formErrors st |}.

Definition set_formErrors (st : State) (value : FormErrors) : State :=
  {| form := form st; formData := formData st; formErrors := value |}.

Section WithEngine.
Context `{Engine}.

Definition updateDerivedFields (st : State) : State * list Effect :=
  let '(data, log) := recompute escapeLabel_class (fields (form st)) (formData st) in
  (set_formData st data, log).

Definition renderPreview (st : State) : State * list Effect :=
  match fields (form st) with
  | [] => (st, [RenderPreview])
  | _ :: _ =>
      let '(st', log) := updateDerivedFields st in
      (st', RenderPreview :: log)
  end.

Definition handleFormSubmit (st : State) : State * list Effect :=
  let errors := validateForm (fields (form st)) (formData st) in
  let st1 := set_formErrors st errors in
  if hasErrors errors then
    let '(st2, log) := renderPreview st1 in
    (st2, Alert "Please fix the errors in the form before submitting." :: log)
  else
    (st1, [AlertSubmitted (formData st1)]).

Definition initializeFormData (st : State) : State :=
  {| form := form st;
     formData := initial_data (fields (form st));
     formErrors := ∅ |}.

(** The method [validateField(fieldId, value)] of the class. *)
Definition validateField_at (fieldId : string) (value : FieldValue) (st : State) : State :=
  match List.find (fun f => String.eqb (field_id f) fieldId) (fields (form st)) with
  | Some field =>
      set_formErrors st (<[fieldId := validateField field value]> (formErrors st))
  | None => st
  end.

Definition handleFieldChange (fieldId value : string) (st : State)
    : State * list Effect :=
  let st1 := set_formData st (<[fieldId := VStr value]> (formData st)) in
  let st2 := validateField_at fieldId (VStr value) st1 in
  updateDerivedFields st2.

Definition handleCheckboxChange (fieldId option : string) (checked : bool)
    (st : State) : State * list Effect :=
  let currentValues :=
    match get (formData st) fieldId with
    | VArr xs => xs
    | _ => []
    end in
  let value := VArr (toggle option checked currentValues) in
  let st1 := set_formData st (<[fieldId := value]> (formData st)) in
  let st2 := validateField_at fieldId value st1 in
  updateDerivedFields st2.

Definition loadForm (newForm : FormSchema) (st : State) : State * list Effect :=
  renderPreview
    (initializeFormData
       {| form := newForm; formData := formData st; formErrors := formErrors st |}).

Definition clearForm (st : State) : State * list Effect :=
  renderPreview (initializeFormData st).
End WithEngine.

End FormPreview.

(** ** The [DynamicFormBuilder] component *)

(** [DEFAULT_VALIDATION_MESSAGES] *)
Definition DEFAULT_VALIDATION_MESSAGES (type : ValidationType) : string :=
  match type with
  | required => "This field is required"
  | minLength => "Minimum length not met"
  | maxLength => "Maximum length exceeded"
  | email => "Please enter a valid email address"
  | password => "Password must be at least 8 characters with a number"
  end.

(** The rule that [addValidation] builds. *)
Definition new_validation (type : ValidationType) : ValidationRule :=
  {| rule_type := type;
     rule_value := match type with
                   | minLength | maxLength => Some 1%Z
                   | _ => None
                   end;
     rule_message := DEFAULT_VALIDATION_MESSAGES type |}.

(** The field that [addField] builds; [id] is the result of [generateId()]. *)
Definition new_field (id : string) : FormField :=
  {| field_id := id; field_type := text; field_label := "New Field";
     field_required := false; defaultValue := VStr ""; validations := [];
     options := []; isDerived := false; derivedFormula := "";
     derivedFrom := [] |}.

(** [field.validations.some(v => v.type === type)] *)
Definition has_validation (type : ValidationType) (field : FormField) : bool :=
  existsb (fun v => bool_decide (rule_type v = type)) (validations field).

Definition same_id (id : string) (field : FormField) : bool :=
  String.eqb (field_id field) id.

Module Component.

Record State : Type := {
  currentForm : FormSchema;
  savedFormsStorage : list FormSchema;
  formData : FormData;
  formErrors : FormErrors
}.

(** *** [StorageManager], kept in memory *)

Definition StorageManager_saveForm (form : FormSchema)
    (storage : list FormSchema) : list FormSchema :=
  storage ++ [form].

Definition StorageManager_deleteForm (formId : string)
    (storage : list FormSchema) : list FormSchema :=
  List.filter (fun form => negb (String.eqb (form_id form) formId)) storage.

Definition StorageManager_getFormById (formId : string)
    (storage : list FormSchema) : option FormSchema :=
  List.find (fun form => String.eqb (form_id form) formId) storage.

(** *** Editing the form *)

(** [updateField(fieldId, 'validations', value)] *)
Definition updateField_validations (fieldId : string)
    (value : list ValidationRule) (form : FormSchema) : FormSchema :=
  set_fields form
    (map (fun field =>
            if String.eqb (field_id field) fieldId
            then set_validations field value else field)
         (fields form)).

(** [addValidation] of the editor of [field], whose [onUpdate] is
    [updateField(field.id, ...)]. *)
Definition addValidation (field : FormField) (type : ValidationType)
    (form : FormSchema) : FormSchema * list Effect :=
  if has_validation type field then
    (form, [Alert "This validation is already added!"])
  else
    (updateField_validations (field_id field)
       (validations field ++ [new_validation type]) form, []).

(** A click on the button [type] of the editor of the [index]-th field. *)
Definition click_addValidation (index : nat) (type : ValidationType)
    (form : FormSchema) : FormSchema * list Effect :=
  match fields form !! index with
  | Some field => addValidation field type form
  | None => (form, [])
  end.

(** *** Preview *)

Section WithEngine.
Context `{Engine}.

(** [updateDerivedFields(data, form)], ending in [setFormData(newData)] *)
Definition updateDerivedFields (data : FormData) (form : FormSchema)
    (st : State) : State * list Effect :=
  let '(newData, log) := recompute escapeLabel (fields form) data in
  ({| currentForm := currentForm st;
      savedFormsStorage := savedFormsStorage st;
      formData := newData; formErrors := formErrors st |}, log).
End WithEngine.

Definition handleFormSubmit (st : State) : State * list Effect :=
  let errors := validateForm (fields (currentForm st)) (formData st) in
  let st1 := {| currentForm := currentForm st;
                savedFormsStorage := savedFormsStorage st;
                formData := formData st; formErrors := errors |} in
  if existsb (fun entry => nonempty (snd entry)) (map_to_list errors) then
    (st1, [Alert "Please fix the errors in the form before submitting."])
  else
    (st1, [AlertSubmitted (formData st)]).

(** *** Saving: [saveForm(name)]; [id] is the result of [generateId()] and
    [now] of [new Date().toISOString()] *)
Definition saveForm (name id now : string) (st : State) : State * list Effect :=
  match fields (currentForm st) with
  | [] => (st, [Alert "Please add some fields before saving the form."])
  | _ :: _ =>
      let newForm := {| form_id := id; form_name := name;
                        fields := fields (currentForm st); createdAt := now |} in
      ({| currentForm := currentForm st;
          savedFormsStorage := StorageManager_saveForm newForm (savedFormsStorage st);
          formData := formData st; formErrors := formErrors st |},
       [Alert "Form saved successfully!"])
  end.

(** A sequence of such clicks. *)
Definition clicks_addValidation (clicks : list (nat * ValidationType))
    (form : FormSchema) : FormSchema :=
  fold_left (fun form click => fst (click_addValidation (fst click) (snd click) form))
            clicks form.

(** *** More of the editor and of the preview *)

(** [deleteField(fieldId)] *)
Definition deleteField (fieldId : string) (form : FormSchema) : FormSchema :=
  set_fields form
    (List.filter (fun field => negb (String.eqb (field_id field) fieldId)) (fields form)).

(** [xs.filter((_, i) => keep(i))], [i] counting from [start]. *)
Fixpoint filter_index {A : Type} (keep : nat -> bool) (start : nat) (xs : list A)
    : list A :=
  match xs with
  | [] => []
  | x :: rest =>
      if keep start then x :: filter_index keep (S start) rest
      else filter_index keep (S start) rest
  end.

(** [removeValidation(index)] of the editor of [field]. *)
Definition removeValidation (field : FormField) (index : nat) (form : FormSchema)
    : FormSchema :=
  updateField_validations (field_id field)
    (filter_index (fun i => negb (i =? index)%nat) 0 (validations field)) form.

(** A click on [Remove] at the [index]-th rule in the editor of the
    [editor]-th field. *)
Definition click_removeValidation (editor index : nat) (form : FormSchema)
    : FormSchema :=
  match fields form !! editor with
  | Some field => removeValidation field index form
  | None => form
  end.

(** [updateField(fieldId, 'options', value)] *)
Definition updateField_options (fieldId : string) (value : list string)
    (form : FormSchema) : FormSchema :=
  set_fields form
    (map (fun field =>
            if String.eqb (field_id field) fieldId
            then set_options field value else field)
         (fields form)).

(** The [onChange] of the options input of the editor of [field]. *)
Definition change_options (field : FormField) (value : string) (form : FormSchema)
    : FormSchema :=
  updateField_options (field_id field) (parse_options value) form.

(** [initializeFormData(form)] *)
Definition initializeFormData (form : FormSchema) (st : State) : State :=
  {| currentForm := currentForm st;
     savedFormsStorage := savedFormsStorage st;
     formData := initial_data (fields form);
     formErrors := ∅ |}.

Section Session.
Context `{Engine}.

Definition handleFormDataChange (fieldId : string) (value : FieldValue) (st : State)
    : State * list Effect :=
  let newFormData := <[fieldId := value]> (formData st) in
  let errors :=
    match List.find (fun f => String.eqb (field_id f) fieldId)
                    (fields (currentForm st)) with
    | Some field => <[fieldId := validateField field value]> (formErrors st)
    | None => formErrors st
    end in
  updateDerivedFields newFormData (currentForm st)
    {| currentForm := currentForm st;
       savedFormsStorage := savedFormsStorage st;
       formData := newFormData; formErrors := errors |}.
End Session.

(** [handleSave] of the save dialog, whose [onSave] is [saveForm]. *)
Definition SaveModal_handleSave (formName id now : string) (st : State)
    : State * list Effect :=
  if nonempty (trim formName) then saveForm (trim formName) id now st
  else (st, [Alert "Please enter a form name."]).

End Component.

(** ** The [FormBuilder] class *)

Module FormBuilder.

Definition createEmptyForm : FormSchema :=
  {| form_id := ""; form_name := ""; fields := []; createdAt := "" |}.

(** [fields.find(f => f.id === fieldId)] *)
Definition find_field (fieldId : string) (fs : list FormField) : option FormField :=
  List.find (same_id fieldId) fs.

(** An assignment to the object that [find] returned: the first field
    with this id changes, where it stands. *)
Fixpoint update_found (fieldId : string) (change : FormField -> FormField)
    (fs : list FormField) : list FormField :=
  match fs with
  | [] => []
  | f :: rest =>
      if same_id fieldId f then change f :: rest
      else f :: update_found fieldId change rest
  end.

(** [addField()]; [id] is the result of [generateId()]. *)
Definition addField (id : string) (currentForm : FormSchema)
    : FormSchema * list Effect :=
  (set_fields currentForm (fields currentForm ++ [new_field id]),
   [RenderFields; NotifyFormChange]).

Definition addValidation (fieldId : string) (type : ValidationType)
    (currentForm : FormSchema) : FormSchema * list Effect :=
  match find_field fieldId (fields currentForm) with
  | Some field =>
      if has_validation type field then
        (currentForm, [Alert "This validation is already added!"])
      else
        (set_fields currentForm
           (update_found fieldId
              (fun f => set_validations f (validations f ++ [new_validation type]))
              (fields currentForm)),
         [RenderFields; NotifyFormChange])
  | None => (currentForm, [])
  end.

(** A sequence of [addValidation] calls, given as the arguments of each. *)
Definition addValidations (calls : list (string * ValidationType))
    (currentForm : FormSchema) : FormSchema :=
  fold_left (fun form call => fst (addValidation (fst call) (snd call) form))
            calls currentForm.

Definition deleteField (fieldId : string) (currentForm : FormSchema)
    : FormSchema * list Effect :=
  (set_fields currentForm
     (List.filter (fun field => negb (String.eqb (field_id field) fieldId))
                  (fields currentForm)),
   [RenderFields; NotifyFormChange]).

(** [updateField(fieldId, 'options', value)] for a text [value] *)
Definition updateField_options (fieldId value : string) (currentForm : FormSchema)
    : FormSchema * list Effect :=
  match find_field fieldId (fields currentForm) with
  | Some _ =>
      (set_fields currentForm
         (update_found fieldId (fun f => set_options f (parse_options value))
                       (fields currentForm)),
       [RenderFields; NotifyFormChange])
  | None => (currentForm, [])
  end.

(** [removeValidation(fieldId, index)]: [splice(index, 1)] takes the rule
    at [index] out, and nothing when there is none. *)
Definition removeValidation (fieldId : string) (index : nat)
    (currentForm : FormSchema) : FormSchema * list Effect :=
  match find_field fieldId (fields currentForm) with
  | Some _ =>
      (set_fields currentForm
         (update_found fieldId
            (fun f => set_validations f (delete index (validations f)))
            (fields currentForm)),
       [RenderFields; NotifyFormChange])
  | None => (currentForm, [])
  end.

End FormBuilder.

(** At most one rule of each kind. *)
Definition one_rule_per_kind (field : FormField) : Prop :=
  NoDup (map rule_type (validations field)).

Definition well_formed (form : FormSchema) : Prop :=
  Forall one_rule_per_kind (fields form).

Definition count_kind (type : ValidationType) (field : FormField) : nat :=
  length (List.filter (fun v => bool_decide (rule_type v = type)) (validations field)).

(** The kinds of the rules of a field, in their order. *)
Definition kinds (field : FormField) : list ValidationType :=
  map rule_type (validations field).

(** [field'] is [field] with rules added at the end. *)
Definition extends (field field' : FormField) : Prop :=
  field_id field' = field_id field /\
  exists more, validations field' = validations field ++ more.

(** ** Saved forms in [localStorage] ([utils/storage.ts]) *)

Module StorageManager.

Definition SAVED_FORMS : string := "formBuilder_savedForms".
Definition CURRENT_FORM : string := "formBuilder_currentForm".

(** A text kept in [localStorage]: [JSON.parse] reads it as the array of
    forms it was written from, reads it as something that is not an
    array, or throws. Forms hold strings, booleans, integers and arrays
    of these, so that [JSON.parse(JSON.stringify(forms))] is a copy equal
    to [forms]. *)
Inductive Text : Type :=
| FormsJson (forms : list FormSchema)
| FormJson (form : FormSchema)
| NotJson.

Abbreviation LocalStorage := (gmap string Text).

(** Whether the browser accepts a write ([setItem] throws when it does
    not, for example beyond the quota). *)
Class Quota : Type := { accepts : LocalStorage -> string -> Text -> bool }.

Inductive Result (A : Type) : Type :=
| Ok (a : A)
| Throws (msg : string).
Arguments Ok {A} a.
Arguments Throws {A} msg.

(** [getSavedForms()]: [inl] an array of forms, [inr] the value of a text
    that is not an array. *)
Definition getSavedForms (ls : LocalStorage) : list FormSchema + FormSchema :=
  match ls !! SAVED_FORMS with
  | Some (FormsJson forms) => inl forms
  | Some (FormJson form) => inr form
  | Some NotJson => inl []
  | None => inl []
  end.

Section WithQuota.
Context `{Quota}.

Definition saveForm (form : FormSchema) (ls : LocalStorage) : Result LocalStorage :=
  match getSavedForms ls with
  | inl savedForms =>
      let text := FormsJson (savedForms ++ [form]) in
      if accepts ls SAVED_FORMS text
      then Ok (<[SAVED_FORMS := text]> ls)
      else Throws "Failed to save form"
  | inr _ => Throws "Failed to save form"
  end.
End WithQuota.

(** The forms that [getSavedForms] returns, when it returns an array. *)
Definition saved (ls : LocalStorage) : list FormSchema :=
  match getSavedForms ls with
  | inl savedForms => savedForms
  | inr _ => []
  end.

(** A browser that accepts every write. *)
Definition unlimited : Quota := {| accepts := fun _ _ _ => true |}.

Definition getFormById (formId : string) (ls : LocalStorage)
    : Result (option FormSchema) :=
  match getSavedForms ls with
  | inl savedForms =>
      Ok (List.find (fun form => String.eqb (form_id form) formId) savedForms)
  | inr _ => Throws "TypeError: savedForms.find is not a function"
  end.

Section Writing.
Context `{Quota}.

Definition updateSavedForms (forms : list FormSchema) (ls : LocalStorage)
    : Result LocalStorage :=
  let text := FormsJson forms in
  if accepts ls SAVED_FORMS text
  then Ok (<[SAVED_FORMS := text]> ls)
  else Throws "Failed to update forms".

Definition deleteForm (formId : string) (ls : LocalStorage) : Result LocalStorage :=
  match getSavedForms ls with
  | inl savedForms =>
      let updatedForms :=
        List.filter (fun form => negb (String.eqb (form_id form) formId)) savedForms in
      match updateSavedForms updatedForms ls with
      | Ok ls' => Ok ls'
      | Throws _ => Throws "Failed to delete form"
      end
  | inr _ => Throws "Failed to delete form"
  end.

(** [autoSaveCurrentForm(form)]: a refused write is only logged. *)
Definition autoSaveCurrentForm (form : FormSchema) (ls : LocalStorage)
    : LocalStorage * list Effect :=
  match fields form with
  | [] => (ls, [])
  | _ :: _ =>
      if accepts ls CURRENT_FORM (FormJson form)
      then (<[CURRENT_FORM := FormJson form]> ls, [])
      else (ls, [ConsoleLog "Error auto-saving current form:"])
  end.
End Writing.

(** [loadAutoSavedForm()]: what [JSON.parse] reads, [None] for [null]. *)
Definition loadAutoSavedForm (ls : LocalStorage) : option (list FormSchema + FormSchema) :=
  match ls !! CURRENT_FORM with
  | Some (FormJson form) => Some (inr form)
  | Some (FormsJson forms) => Some (inl forms)
  | Some NotJson => None
  | None => None
  end.

Definition clearAutoSave (ls : LocalStorage) : LocalStorage := delete CURRENT_FORM ls.

End StorageManager.

(** [loadAutoSavedForm()] of the [FormBuilder] class: the form it goes on
    with, or the array that it takes for its form. *)
Definition FormBuilder_loadAutoSavedForm (ls : StorageManager.LocalStorage)
    (currentForm : FormSchema) : list FormSchema + FormSchema :=
  match StorageManager.loadAutoSavedForm ls with
  | Some autoSaved => autoSaved
  | None => inr currentForm
  end.

(** ** Sample data *)

Definition minLength3 : ValidationRule :=
  {| rule_type := minLength; rule_value := Some 3%Z;
     rule_message := DEFAULT_VALIDATION_MESSAGES minLength |}.

(** A required rule whose message the user has cleared. *)
Definition required_no_message : ValidationRule :=
  {| rule_type := required; rule_value := None; rule_message := "" |}.

Definition field_required_minLength : FormField :=
  set_validations (new_field "f1") [new_validation required; minLength3].

Definition field_silent_required_minLength : FormField :=
  set_validations (new_field "f1") [required_no_message; minLength3].

Definition field_email : FormField :=
  set_validations (new_field "f2") [new_validation email].

Definition field_checkbox : FormField :=
  set_validations (new_field "f3")
    [new_validation minLength; new_validation required].

Definition input_field (id label : string) : FormField :=
  {| field_id := id; field_type := number; field_label := label;
     field_required := false; defaultValue := VStr ""; validations := [];
     options := []; isDerived := false; derivedFormula := "";
     derivedFrom := [] |}.

Definition derived_field (id label formula : string) : FormField :=
  {| field_id := id; field_type := number; field_label := label;
     field_required := false; defaultValue := VStr ""; validations := [];
     options := []; isDerived := true; derivedFormula := formula;
     derivedFrom := [] |}.

(** The fields [A], [B] and the derived field [C] of the specification's
    examples, with ids ["a"], ["b"], ["c"]. *)
Definition fields_sum : list FormField :=
  [input_field "a" "A"; input_field "b" "B"; derived_field "c" "C" "A + B"].

Definition fields_unsafe : list FormField :=
  [input_field "a" "A"; input_field "b" "B"; derived_field "c" "C" "A; alert(1)"].

Definition fields_unbalanced : list FormField :=
  [input_field "a" "A"; derived_field "c" "C" "(A + 1"].

Definition fields_self : list FormField := [derived_field "c" "C" "C + 1"].

(** The answers of the engine on the texts of the examples: the decimal
    literals used are written the way [toString] prints them, [3 + 4] is
    [7], and [(3 + 1], [(0 + 1] and [(NaN + 1] are syntax errors. *)
Definition sample_engine : Engine :=
  {| show_number := fun literal => literal;
     run_formula := fun formula =>
       if String.eqb formula "3 + 4" then Some "7"%string else None |}.

(** No matcher of the pattern accepts the character [c]. *)
Definition avoids (c : ascii) (pat : pattern) : bool :=
  forallb (fun p => negb (p c)) pat.

(** The character [c] occurs in [s]. *)
Definition occurs (c : ascii) (s : string) : bool := string_exists (is_char c) s.

(** The field is recomputed by a pass. *)
Definition computed (field : FormField) : bool :=
  isDerived field && nonempty (derivedFormula field).

Definition fields_increment : list FormField :=
  [input_field "a" "A"; derived_field "c" "C" "A + 1"].

(** The value map of a preview in which nothing has been typed yet. *)
Definition data_untouched : FormData :=
  <["a" := VStr ""]> (<["c" := VStr ""]> ∅).

Definition data_3_4 : FormData :=
  <["a" := VStr "3"]> (<["b" := VStr "4"]> (<["c" := VStr ""]> ∅)).

Definition data_3_old : FormData :=
  <["a" := VStr "3"]> (<["c" := VStr "old"]> ∅).

(** The form after [addField()] on the empty form, the new id being ["f1"]. *)
Definition form_one_field : FormSchema :=
  fst (FormBuilder.addField "f1" FormBuilder.createEmptyForm).

(** The only effects of a recompute pass. *)
Definition is_evaluation (e : Effect) : Prop :=
  match e with
  | Evaluated _ | ConsoleLog _ => True
  | _ => False
  end.

Definition state_required_empty : FormPreview.State :=
  {| FormPreview.form :=
       {| form_id := "1"; form_name := "sample";
          fields := [field_required_minLength]; createdAt := "" |};
     FormPreview.formData := <["f1" := VStr ""]> ∅;
     FormPreview.formErrors := ∅ |}.

Definition state_required_filled : FormPreview.State :=
  {| FormPreview.form :=
       {| form_id := "1"; form_name := "sample";
          fields := [field_required_minLength]; createdAt := "" |};
     FormPreview.formData := <["f1" := VStr "abc"]> ∅;
     FormPreview.formErrors := ∅ |}.

(** Two saved forms with the same id. *)
Definition form_old : FormSchema :=
  {| form_id := "1"; form_name := "old";
     fields := [input_field "a" "A"]; createdAt := "2024-01-01T00:00:00.000Z" |}.

Definition form_new : FormSchema :=
  {| form_id := "1"; form_name := "new";
     fields := fields_sum; createdAt := "2024-01-02T00:00:00.000Z" |}.

Definition form_other : FormSchema :=
  {| form_id := "2"; form_name := "other";
     fields := [field_required_minLength; field_checkbox];
     createdAt := "2024-01-03T00:00:00.000Z" |}.

(** No form of the list has the id [id]. *)
Definition id_is_new (id : string) (forms : list FormSchema) : Prop :=
  Forall (fun saved => form_id saved <> id) forms.

(** ** Further vocabulary of the properties *)

(** Whether a rule fails on the empty string. *)
Definition fails_on_empty (rule : ValidationRule) : bool :=
  match rule_type rule with
  | required => true
  | minLength => (0 <? threshold rule)%Z
  | maxLength => (threshold rule <? 0)%Z
  | email | password => false
  end.

(** The pattern matches somewhere in [s]. *)
Fixpoint found_in (pat : pattern) (s : string) : bool :=
  match match_at pat s with
  | Some _ => true
  | None =>
      match s with
      | EmptyString => false
      | String _ s' => found_in pat s'
      end
  end.

Definition fields_constant : list FormField :=
  [input_field "a" "A"; derived_field "c" "C" "(1 + 2) * 3"].

Definition data_a_empty : FormData := <["a" := VStr ""]> ∅.

(** The selection that [handleCheckboxChange] starts from. *)
Definition selection (value : FieldValue) : list string :=
  match value with
  | VArr xs => xs
  | _ => []
  end.

(** The first field with the id, as [fields.find(f => f.id === fieldId)]
    returns it. *)
Definition field_of (fieldId : string) (fs : list FormField) : option FormField :=
  List.find (fun f => String.eqb (field_id f) fieldId) fs.

(** No field of this id is recomputed by a pass. *)
Definition not_computed (id : string) (fs : list FormField) : Prop :=
  forall f, In f fs -> field_id f = id -> computed f = false.

Definition field_colours : FormField :=
  {| field_id := "k"; field_type := checkbox; field_label := "Colours";
     field_required := true; defaultValue := VArr [];
     validations := [new_validation required];
     options := ["red"; "green"]%string; isDerived := false;
     derivedFormula := ""; derivedFrom := [] |}.

Definition state_colours : FormPreview.State :=
  {| FormPreview.form :=
       {| form_id := "1"; form_name := "sample";
          fields := [field_colours; field_email]; createdAt := "" |};
     FormPreview.formData := <["k" := VArr []]> (<["f2" := VStr ""]> ∅);
     FormPreview.formErrors := ∅ |}.

(** The text starts with a character that is not white space, or is empty. *)
Definition headed (s : string) : bool :=
  match s with
  | EmptyString => true
  | String c _ => negb (is_space c)
  end.

(** An option as [parse_options] yields them: not empty, without white
    space at its ends, without a comma. *)
Definition clean_option (o : string) : Prop :=
  o <> ""%string /\ trim o = o /\ occurs "," o = false.

(** What [join] puts after the first element. *)
Definition join_rest (sep : string) (xs : list string) : string :=
  match xs with
  | [] => ""
  | _ :: _ => sep +:+ join sep xs
  end.

Definition field_sizes : FormField :=
  set_options (new_field "s") ["S"; "M"; "L"]%string.

(** An editor with one field and nothing saved yet. *)
Definition state_editing : Component.State :=
  {| Component.currentForm := form_one_field;
     Component.savedFormsStorage := [];
     Component.formData := ∅;
     Component.formErrors := ∅ |}.

(** [savedForms.find(form => form.id === formId)] *)
Definition find_form (formId : string) (forms : list FormSchema) : option FormSchema :=
  List.find (fun form => String.eqb (form_id form) formId) forms.

(** [savedForms.filter(form => form.id !== formId)] *)
Definition without_id (formId : string) (forms : list FormSchema) : list FormSchema :=
  List.filter (fun form => negb (String.eqb (form_id form) formId)) forms.

Definition storage_one_form : StorageManager.LocalStorage :=
  <[StorageManager.SAVED_FORMS := StorageManager.FormsJson [form_old]]> ∅.

(* ================================================================== *)
(** * Part II: properties                                              *)
(* ================================================================== *)

(** ** Strings *)



Lemma append_eq_nil (s1 s2 : string) :
  s1 +:+ s2 = "" -> s1 = "" /\ s2 = "".
Proof. destruct s1; simpl; [auto | discriminate]. Qed.


Lemma string_exists_app p s1 s2 :
  string_exists p (s1 +:+ s2) = string_exists p s1 || string_exists p s2.
Proof.
  induction s1 as [|c s1 IH]; simpl; [reflexivity|].
  now rewrite IH, orb_assoc.
Qed.

(** ** The matcher decides the language *)

Lemma nullable_lang r : nullable r = true <-> lang r "".
Proof.
  split.
  - induction r; simpl; intros H; try discriminate.
    + constructor.
    + apply andb_true_iff in H as [H1 H2].
      change ""%string with ("" +:+ "")%string. constructor; auto.
    + apply orb_true_iff in H as [H|H]; [apply lang_alt_l | apply lang_alt_r]; auto.
    + constructor.
  - intros H. remember ""%string as s eqn:Hs.
    induction H; simpl; try reflexivity; try discriminate.
    + apply append_eq_nil in Hs as [-> ->]. rewrite IHlang1, IHlang2; auto.
    + rewrite IHlang; auto.
    + rewrite IHlang; auto using orb_true_r.
Qed.

Lemma lang_star_uncons r c s :
  lang (Star r) (String c s) ->
  exists s1 s2, s = s1 +:+ s2 /\ lang r (String c s1) /\ lang (Star r) s2.
Proof.
  intros H. remember (Star r) as r' eqn:Hr. remember (String c s) as w eqn:Hw.
  revert c s Hw. induction H; intros c0 s0 Hw; try discriminate.
  injection Hr as ->.
  destruct s1 as [|c1 s1]; simpl in Hw.
  - apply IHlang2; auto.
  - injection Hw as -> <-. eauto.
Qed.

Lemma lang_seq_inv r1 r2 s :
  lang (Seq r1 r2) s ->
  exists s1 s2, s = s1 +:+ s2 /\ lang r1 s1 /\ lang r2 s2.
Proof. intros H. inversion H; subst. eauto. Qed.

Lemma lang_alt_inv r1 r2 s : lang (Alt r1 r2) s -> lang r1 s \/ lang r2 s.
Proof. intros H. inversion H; subst; auto. Qed.

Lemma lang_class_inv p s :
  lang (Class p) s -> exists c, s = String c "" /\ p c = true.
Proof. intros H. inversion H; subst. eauto. Qed.

Lemma lang_eps_inv s : lang Eps s -> s = "".
Proof. intros H. now inversion H. Qed.

Lemma lang_seq_cons r1 r2 c s1 s2 :
  lang r1 (String c s1) -> lang r2 s2 -> lang (Seq r1 r2) (String c (s1 +:+ s2)).
Proof.
  intros H1 H2. change (String c (s1 +:+ s2)) with (String c s1 +:+ s2).
  now constructor.
Qed.

Lemma deriv_lang c r s : lang (deriv c r) s <-> lang r (String c s).
Proof.
  revert s. induction r as [| |p|r1 IH1 r2 IH2|r1 IH1 r2 IH2|r IH]; intros s; simpl.
  - split; intros H; inversion H.
  - split; intros H; inversion H.
  - destruct (p c) eqn:Hp; split; intros H.
    + apply lang_eps_inv in H as ->. now constructor.
    + apply lang_class_inv in H as (c' & [= <- ->] & _). constructor.
    + inversion H.
    + apply lang_class_inv in H as (c' & [= <- _] & Hc). congruence.
  - assert (Hl : forall s, lang (Seq (deriv c r1) r2) s ->
                           lang (Seq r1 r2) (String c s)).
    { intros s' (s1 & s2 & -> & H1 & H2)%lang_seq_inv.
      apply lang_seq_cons; [apply IH1|]; auto. }
    assert (Hr : forall s, lang (Seq r1 r2) (String c s) ->
                 lang (Seq (deriv c r1) r2) s \/
                 (lang r1 "" /\ lang r2 (String c s))).
    { intros s' (s1 & s2 & E & H1 & H2)%lang_seq_inv.
      destruct s1 as [|c1 s1]; simpl in E.
      - right. subst s2. auto.
      - injection E as <- ->. left. constructor; [apply IH1|]; auto. }
    destruct (nullable r1) eqn:Hn; split; intros H.
    + apply lang_alt_inv in H as [H|H]; [auto|].
      change (String c s) with ("" +:+ String c s).
      constructor; [apply nullable_lang | apply IH2]; auto.
    + apply Hr in H as [H|[_ H]]; [now apply lang_alt_l|].
      apply lang_alt_r, IH2, H.
    + auto.
    + apply Hr in H as [H|[H _]]; [assumption|].
      apply nullable_lang in H. congruence.
  - split; intros [H|H]%lang_alt_inv.
    + apply lang_alt_l, IH1, H.
    + apply lang_alt_r, IH2, H.
    + apply lang_alt_l, IH1, H.
    + apply lang_alt_r, IH2, H.
  - split; intros H.
    + apply lang_seq_inv in H as (s1 & s2 & -> & H1 & H2).
      change (String c (s1 +:+ s2)) with (String c s1 +:+ s2).
      constructor; [apply IH|]; auto.
    + apply lang_star_uncons in H as (s1 & s2 & -> & H1 & H2).
      constructor; [apply IH|]; auto.
Qed.

Lemma matches_lang r s : matches r s = true <-> lang r s.
Proof.
  revert r. induction s as [|c s IH]; intros r; simpl.
  - apply nullable_lang.
  - rewrite IH. apply deriv_lang.
Qed.

(** [longest_match] finds a prefix of the language, and no longer prefix
    is in the language. *)
Lemma longest_match_sound r s n :
  longest_match r s = Some n ->
  n <= String.length s /\ lang r (take_chars n s).
Proof.
  revert r n. induction s as [|c s IH]; intros r n; simpl.
  - destruct (nullable r) eqn:Hn; [|discriminate].
    intros [= <-]. split; [lia | now apply nullable_lang].
  - destruct (longest_match (deriv c r) s) as [m|] eqn:Hm.
    + intros [= <-]. destruct (IH _ _ Hm) as [Hle Hl].
      split; [lia | now apply deriv_lang].
    + destruct (nullable r) eqn:Hn; [|discriminate].
      intros [= <-]. split; [lia | now apply nullable_lang].
Qed.

Lemma longest_match_none r s m :
  longest_match r s = None -> ~ lang r (take_chars m s).
Proof.
  revert r m. induction s as [|c s IH]; intros r m; simpl.
  - destruct (nullable r) eqn:Hn; [discriminate|].
    intros _ Hl. destruct m; apply nullable_lang in Hl; congruence.
  - destruct (longest_match (deriv c r) s) as [k|] eqn:Hk; [discriminate|].
    destruct (nullable r) eqn:Hn; [discriminate|].
    intros _ Hl. destruct m as [|m]; simpl in Hl.
    + apply nullable_lang in Hl. congruence.
    + apply deriv_lang in Hl. exact (IH _ m Hk Hl).
Qed.

Lemma longest_match_longest r s n m :
  longest_match r s = Some n ->
  m <= String.length s -> lang r (take_chars m s) -> m <= n.
Proof.
  revert r n m. induction s as [|c s IH]; intros r n m; simpl.
  - intros _ Hm _. lia.
  - destruct (longest_match (deriv c r) s) as [k|] eqn:Hk.
    + intros [= <-] Hm Hl. destruct m as [|m]; [lia|]. simpl in Hl.
      apply deriv_lang in Hl. apply le_n_S. apply (IH _ _ _ Hk); [lia | exact Hl].
    + destruct (nullable r); [|discriminate].
      intros [= <-] Hm Hl. destruct m as [|m]; [lia|]. simpl in Hl.
      apply deriv_lang in Hl. now apply longest_match_none in Hl.
Qed.

Lemma lang_star_class p s :
  lang (Star (Class p)) s <-> string_forall p s = true.
Proof.
  split.
  - intros H. remember (Star (Class p)) as r eqn:Hr.
    induction H; try discriminate; [reflexivity|].
    injection Hr as ->.
    apply lang_class_inv in H as (c & -> & Hc). simpl.
    rewrite Hc. auto.
  - induction s as [|c s IH]; simpl; intros H; [constructor|].
    apply andb_true_iff in H as [Hc Hs].
    change (String c s) with (String c "" +:+ s).
    constructor; [now constructor | auto].
Qed.

Lemma lang_plus_class p s :
  lang (Plus (Class p)) s <-> s <> ""%string /\ string_forall p s = true.
Proof.
  unfold Plus. split.
  - intros (s1 & s2 & -> & (c & -> & Hc)%lang_class_inv & H2%lang_star_class)%lang_seq_inv.
    simpl. rewrite Hc, H2. split; [discriminate | reflexivity].
  - intros [Hne H]. destruct s as [|c s]; [congruence|]. simpl in H.
    apply andb_true_iff in H as [Hc Hs].
    change (String c s) with (String c "" +:+ s).
    constructor; [now constructor | now apply lang_star_class].
Qed.

Lemma lang_char a s : lang (Class (is_char a)) s <-> s = String a "".
Proof.
  split.
  - intros (c & -> & Hc)%lang_class_inv. apply Ascii.eqb_eq in Hc. now subst.
  - intros ->. constructor. apply Ascii.eqb_refl.
Qed.

(** The regular expression of the source accepts exactly the strings of
    the shape [local@domain.tld]. *)
Lemma email_regex_spec s :
  matches email_regex s = true <-> local_at_domain_tld s.
Proof.
  rewrite matches_lang. unfold email_regex, local_at_domain_tld, is_part. split.
  - intros (loc & s1 & -> & Hloc%lang_plus_class
            & (at_ & s2 & -> & ->%lang_char
            & (dom & s3 & -> & Hdom%lang_plus_class
            & (dot & tld & -> & ->%lang_char & Htld%lang_plus_class)
              %lang_seq_inv)%lang_seq_inv)%lang_seq_inv)%lang_seq_inv.
    exists loc, dom, tld. auto.
  - intros (loc & dom & tld & -> & Hloc & Hdom & Htld).
    constructor; [now apply lang_plus_class|].
    constructor; [now apply lang_char|].
    constructor; [now apply lang_plus_class|].
    constructor; [now apply lang_char | now apply lang_plus_class].
Qed.

(** ** Validation engine *)

(** Every rule kind returns the rule's message when its failure condition
    holds and the empty string otherwise. *)
Lemma validateRule_fails rule value :
  validateRule rule value =
  if rule_fails rule value then rule_message rule else ""%string.
Proof.
  unfold validateRule, rule_fails, validateRequired, validateMinLength,
    validateMaxLength, validateEmail, validatePassword.
  destruct (rule_type rule), value as [|s|xs]; simpl; try reflexivity.
  - destruct (nonempty s); reflexivity.
Qed.

Lemma nonempty_true s : nonempty s = true <-> s <> ""%string.
Proof. destruct s; simpl; split; congruence. Qed.


Lemma validateRule_reports rule value :
  nonempty (validateRule rule value) = true <-> reports value rule.
Proof.
  rewrite validateRule_fails. unfold reports.
  destruct (rule_fails rule value); rewrite nonempty_true; simpl; intuition congruence.
Qed.

Lemma validateRule_silent rule value :
  nonempty (validateRule rule value) = false <-> ~ reports value rule.
Proof.
  rewrite <- validateRule_reports. destruct (nonempty _); intuition congruence.
Qed.

Lemma validateRules_calls_fst rules value :
  fst (validateRules_calls rules value) = validateRules rules value.
Proof.
  induction rules as [|r rules IH]; simpl; [reflexivity|].
  destruct (nonempty (validateRule r value)); [reflexivity|].
  destruct (validateRules_calls rules value). exact IH.
Qed.

Lemma validateRules_first pre rule post value :
  Forall (fun q => ~ reports value q) pre ->
  reports value rule ->
  validateRules_calls (pre ++ rule :: post) value = (rule_message rule, pre ++ [rule]).
Proof.
  intros Hpre Hr. induction Hpre as [|q pre Hq _ IH]; simpl.
  - pose proof Hr as [Hf _]. apply validateRule_reports in Hr. rewrite Hr.
    rewrite validateRule_fails, Hf. reflexivity.
  - apply validateRule_silent in Hq. rewrite Hq, IH. reflexivity.
Qed.

Lemma validateRules_empty rules value :
  validateRules rules value = ""%string <->
  Forall (fun q => ~ reports value q) rules.
Proof.
  induction rules as [|r rules IH]; simpl.
  - split; auto.
  - destruct (nonempty (validateRule r value)) eqn:E.
    + split.
      * intros H. rewrite H in E. discriminate.
      * intros H. inversion H; subst. apply validateRule_reports in E. contradiction.
    + rewrite IH. split.
      * intros H. constructor; [now apply validateRule_silent | assumption].
      * intros H. now inversion H.
Qed.

Lemma validateRules_nonempty rules value :
  validateRules rules value <> ""%string ->
  exists rule, In rule rules /\ reports value rule /\
               validateRules rules value = rule_message rule.
Proof.
  induction rules as [|r rules IH]; simpl; [congruence|].
  destruct (nonempty (validateRule r value)) eqn:E.
  - intros _. exists r. apply validateRule_reports in E.
    split; [auto|]. split; [assumption|].
    rewrite validateRule_fails. destruct E as [-> _]. reflexivity.
  - intros (q & Hin & Hq & Hm)%IH. eauto.
Qed.

(** C1, as the code has it. [validateField] goes through the validations in
    their order and returns the message of the first rule that fails with a
    message that is not empty; [validateRule] is called on the rules up to
    that one and on no later rule, whatever the later rules are. The result
    is the empty string exactly when no rule fails with a non-empty message.
    With the rules [required, minLength(3)] and the value [""], the result
    is the message of the required rule when that message is not empty. *)
Theorem validateField_first_reported_failure (field : FormField) (value : FieldValue) :
  (forall pre rule post,
      validations field = pre ++ rule :: post ->
      Forall (fun q => ~ reports value q) pre ->
      reports value rule ->
      validateField field value = rule_message rule /\
      snd (validateRules_calls (validations field) value) = pre ++ [rule]) /\
  (validateField field value = ""%string <->
   Forall (fun q => ~ reports value q) (validations field)) /\
  (forall req min,
      validations field = [req; min] ->
      rule_type req = required -> rule_type min = minLength ->
      rule_value min = Some 3%Z ->
      rule_message req <> ""%string ->
      value = VStr "" ->
      validateField field value = rule_message req).
Proof.
  unfold validateField. split; [|split].
  - intros pre rule post -> Hpre Hr.
    rewrite <- validateRules_calls_fst, (validateRules_first pre rule post value Hpre Hr).
    auto.
  - apply validateRules_empty.
  - intros req min -> Hreq _ _ Hmsg ->.
    assert (Hr : reports (VStr "") req).
    { split; [|exact Hmsg]. unfold rule_fails. now rewrite Hreq. }
    pose proof (validateRules_first [] req [min] (VStr "") (List.Forall_nil _) Hr) as E.
    simpl app in E. now rewrite <- validateRules_calls_fst, E.
Qed.

Lemma validateField_first_reported_failure_witness :
  validateField field_required_minLength (VStr "") = "This field is required"%string /\
  snd (validateRules_calls (validations field_required_minLength) (VStr ""))
  = [new_validation required].
Proof.
  destruct (validateField_first_reported_failure field_required_minLength (VStr ""))
    as (Hfirst & _ & _).
  apply (Hfirst [] (new_validation required) [minLength3]).
  - reflexivity.
  - constructor.
  - split; [reflexivity | discriminate].
Defined.

(** C1 as stated fails: the first rule whose failure condition holds is the
    required rule, its message is empty, and [validateField] goes on to the
    minLength rule and returns that rule's message. *)
Lemma validateField_silent_failure_counterexample :
  first_failing (validations field_silent_required_minLength) (VStr "")
  = Some required_no_message /\
  validateField field_silent_required_minLength (VStr "")
  = rule_message minLength3 /\
  validateField field_silent_required_minLength (VStr "")
  <> rule_message required_no_message.
Proof. repeat split. discriminate. Qed.

(** C5. An email rule fails exactly when the value is a non-empty string
    that is not of the shape [local@domain.tld]; [validateRule] then returns
    the rule's message, and the empty string otherwise. A field whose only
    rule is an email rule accepts the empty string. *)
Theorem email_rule_fails_exactly (rule : ValidationRule) (value : FieldValue) :
  rule_type rule = email ->
  (rule_fails rule value = true <->
   exists s, value = VStr s /\ s <> ""%string /\ ~ local_at_domain_tld s) /\
  validateRule rule value
  = (if rule_fails rule value then rule_message rule else ""%string) /\
  (forall field, validations field = [rule] -> validateField field (VStr "") = ""%string).
Proof.
  intros Hty. split; [|split].
  - unfold rule_fails. rewrite Hty. destruct value as [|s|xs].
    + split; [discriminate | intros (s & [=] & _)].
    + rewrite andb_true_iff, negb_true_iff, nonempty_true,
        <- not_true_iff_false, email_regex_spec.
      split.
      * intros [Hne Hno]. exists s. auto.
      * intros (s' & [= <-] & Hne & Hno). auto.
    + split; [discriminate | intros (s & [=] & _)].
  - apply validateRule_fails.
  - intros field Hv. unfold validateField. rewrite Hv. simpl.
    rewrite validateRule_fails. unfold rule_fails. rewrite Hty. reflexivity.
Qed.

Lemma not_email_a_at_b : ~ local_at_domain_tld "a@b".
Proof.
  intros Hm%email_regex_spec. vm_compute in Hm. discriminate.
Qed.

Lemma email_rule_fails_exactly_witness :
  rule_fails (new_validation email) (VStr "a@b") = true /\
  validateField field_email (VStr "") = ""%string.
Proof.
  destruct (email_rule_fails_exactly (new_validation email) (VStr "a@b") eq_refl)
    as (Hfails & _ & Hempty).
  split.
  - apply Hfails. exists "a@b"%string.
    split; [reflexivity|]. split; [discriminate | exact not_email_a_at_b].
  - apply Hempty. reflexivity.
Defined.

(** C6. On a value that is not a string (an array, or a missing value) the
    rules minLength, maxLength, email and password never fail and return the
    empty string, so an array value fails a field only through a required
    rule, and only when the array is empty. *)
Theorem sequence_values_fail_only_required (field : FormField) (xs : list string) :
  (forall rule value,
      (forall s, value <> VStr s) ->
      rule_type rule <> required ->
      rule_fails rule value = false /\ validateRule rule value = ""%string) /\
  (validateField field (VArr xs) <> ""%string ->
   exists rule,
     In rule (validations field) /\ rule_type rule = required /\
     xs = [] /\ validateField field (VArr xs) = rule_message rule).
Proof.
  split.
  - intros rule value Hns Hty.
    assert (Hf : rule_fails rule value = false).
    { unfold rule_fails.
      destruct (rule_type rule), value as [|s|ys]; try reflexivity;
        solve [congruence | now destruct (Hns s)]. }
    split; [exact Hf|]. now rewrite validateRule_fails, Hf.
  - unfold validateField.
    intros (rule & Hin & [Hf Hm] & Hres)%validateRules_nonempty.
    exists rule. split; [exact Hin|].
    unfold rule_fails in Hf.
    destruct (rule_type rule); try discriminate.
    split; [reflexivity|]. split; [|exact Hres].
    destruct xs; [reflexivity | discriminate].
Qed.

Lemma sequence_values_fail_only_required_witness :
  validateRule (new_validation minLength) (VArr ["a"]) = ""%string /\
  exists rule,
    In rule (validations field_checkbox) /\ rule_type rule = required /\
    validateField field_checkbox (VArr []) = rule_message rule.
Proof.
  destruct (sequence_values_fail_only_required field_checkbox []) as [Hrule Hfield].
  split.
  - apply (Hrule (new_validation minLength) (VArr ["a"])); discriminate.
  - destruct Hfield as (rule & Hin & Hty & _ & Hres); [discriminate|].
    exists rule. auto.
Defined.

(** *** The examples of the specification *)

Example required_on_checkboxes :
  validateRule (new_validation required) (VArr []) = "This field is required"%string /\
  validateRule (new_validation required) (VArr ["a"%string]) = ""%string.
Proof. split; reflexivity. Qed.

Example email_examples :
  validateRule (new_validation email) (VStr "a@b.com") = ""%string /\
  validateRule (new_validation email) (VStr "a@b")
  = "Please enter a valid email address"%string /\
  validateRule (new_validation email) (VStr "") = ""%string.
Proof. repeat split; vm_compute; reflexivity. Qed.

Example password_examples :
  validateRule (new_validation password) (VStr "secret12") = ""%string /\
  validateRule (new_validation password) (VStr "secretxx") <> ""%string /\
  validateRule (new_validation password) (VStr "abc1") <> ""%string.
Proof. repeat split; vm_compute; discriminate. Qed.

(** ** Derived-field evaluator *)

(** Decides a closed [NoDup] goal, such as the distinctness of the ids of a
    given form. *)
Ltac distinct_ids :=
  lazymatch goal with
  | |- ?P =>
      let H := fresh in
      assert (H : Is_true (bool_decide P)) by (vm_compute; exact I);
      exact (bool_decide_unpack P H)
  end.

Section EvaluatorFacts.
Context `{Engine}.
Variable escape : string -> pattern.

Lemma match_at_occurs c pat s rest :
  avoids c pat = true -> match_at pat s = Some rest ->
  occurs c s = occurs c rest.
Proof.
  revert s. induction pat as [|p pat IH]; simpl; intros s Hav Hm.
  - congruence.
  - apply andb_true_iff in Hav as [Hp Hav].
    destruct s as [|c' s]; [discriminate|].
    destruct (p c') eqn:Hc'; [|discriminate].
    unfold occurs in *. simpl. rewrite <- (IH s Hav Hm).
    unfold is_char. destruct (Ascii.eqb_spec c c') as [->|]; [|reflexivity].
    rewrite Hc' in Hp. discriminate.
Qed.

Lemma occurs_app c s1 s2 : occurs c (s1 +:+ s2) = occurs c s1 || occurs c s2.
Proof. apply string_exists_app. Qed.

(** A character that the pattern cannot match is still there after the
    replacement. *)
Lemma replace_fuel_occurs c fuel pat repl s :
  avoids c pat = true -> occurs c s = true ->
  occurs c (replace_fuel fuel pat repl s) = true.
Proof.
  intros Hav. revert s. induction fuel as [|fuel IH]; simpl; intros s Hs; [exact Hs|].
  destruct (match_at pat s) as [rest|] eqn:Hm.
  - destruct pat as [|p pat].
    + destruct s as [|c' s]; [discriminate|].
      rewrite occurs_app. unfold occurs in *. simpl in *.
      apply orb_true_iff in Hs as [->|Hs]; [now rewrite orb_true_r|].
      rewrite (IH s Hs). now rewrite !orb_true_r.
    + rewrite occurs_app, IH; [apply orb_true_r|].
      now rewrite <- (match_at_occurs c _ _ _ Hav Hm).
  - destruct s as [|c' s]; [discriminate|].
    unfold occurs in *. simpl in *.
    apply orb_true_iff in Hs as [->|Hs]; [reflexivity|].
    rewrite (IH s Hs). apply orb_true_r.
Qed.

Lemma substituteLabels_occurs c fields field data :
  (forall f, In f fields -> field_id f <> field_id field ->
             avoids c (escape (field_label f)) = true) ->
  occurs c (derivedFormula field) = true ->
  occurs c (substituteLabels escape fields field data) = true.
Proof.
  unfold substituteLabels. generalize (derivedFormula field) as formula.
  induction fields as [|f fields IH]; simpl; intros formula Hav Hocc; [exact Hocc|].
  apply IH; [intros g Hg; apply Hav; now right|].
  destruct (String.eqb_spec (field_id f) (field_id field)) as [E|NE]; simpl; [exact Hocc|].
  apply replace_fuel_occurs; [|exact Hocc].
  apply Hav; [now left | exact NE].
Qed.

(** The whitelist accepts the non-empty texts made of formula characters. *)
Lemma formula_whitelist_spec s :
  matches formula_whitelist s = true <->
  s <> ""%string /\ string_forall is_formula_char s = true.
Proof. rewrite matches_lang. apply lang_plus_class. Qed.

Lemma occurs_forall c p s :
  p c = false -> occurs c s = true -> string_forall p s = false.
Proof.
  intros Hp. unfold occurs. induction s as [|c' s IH]; simpl; [discriminate|].
  unfold is_char at 1. destruct (Ascii.eqb_spec c c') as [<-|_]; simpl.
  - intros _. now rewrite Hp.
  - intros Hs. rewrite (IH Hs). apply andb_false_r.
Qed.

Lemma whitelist_rejects s :
  string_forall is_formula_char s = false -> matches formula_whitelist s = false.
Proof.
  intros Hs. apply not_true_iff_false. intros [_ Hall]%formula_whitelist_spec.
  congruence.
Qed.

(** *** One field *)

Lemma recomputeField_rejected fields field data log :
  string_forall is_formula_char (substituteLabels escape fields field data) = false ->
  recomputeField escape fields (data, log) field = (data, log).
Proof.
  intros Hs. unfold recomputeField.
  destruct (isDerived field && nonempty (derivedFormula field)); [|reflexivity].
  now rewrite (whitelist_rejects _ Hs).
Qed.

Lemma recomputeField_throws fields field data log :
  run_formula (substituteLabels escape fields field data) = None ->
  fst (recomputeField escape fields (data, log) field) = data.
Proof.
  intros Hs. unfold recomputeField.
  destruct (isDerived field && nonempty (derivedFormula field)); [|reflexivity].
  destruct (matches formula_whitelist _); [|reflexivity].
  now rewrite Hs.
Qed.

Lemma recomputeField_frame fields field state id :
  (field_id field = id -> computed field = false) ->
  fst (recomputeField escape fields state field) !! id = fst state !! id.
Proof.
  intros Hid. destruct state as [data log]. unfold recomputeField.
  fold (computed field).
  destruct (computed field) eqn:Hc; [|reflexivity].
  destruct (matches formula_whitelist _); [|reflexivity].
  destruct (run_formula _); [|reflexivity].
  simpl. apply lookup_insert_ne. intros E. apply Hid in E. discriminate.
Qed.

(** *** A pass, or a part of a pass *)

Lemma recompute_fold_frame fields fs state id :
  (forall f, In f fs -> field_id f = id -> computed f = false) ->
  fst (fold_left (recomputeField escape fields) fs state) !! id = fst state !! id.
Proof.
  revert state. induction fs as [|f fs IH]; simpl; intros state Hfs; [reflexivity|].
  rewrite IH; [|intros g Hg; apply Hfs; now right].
  apply recomputeField_frame. apply Hfs. now left.
Qed.

Lemma recompute_fold_other fields fs state id :
  ~ In id (map field_id fs) ->
  fst (fold_left (recomputeField escape fields) fs state) !! id = fst state !! id.
Proof.
  intros Hid. apply recompute_fold_frame. intros f Hf E.
  destruct Hid. rewrite <- E. now apply in_map.
Qed.

Lemma recompute_keeps fields pre field post data :
  fields = pre ++ field :: post ->
  NoDup (map field_id fields) ->
  fst (recomputeField escape fields
         (fold_left (recomputeField escape fields) pre (data, [])) field)
  = data_after escape fields pre data ->
  fst (recompute escape fields data) !! field_id field = data !! field_id field.
Proof.
  intros Hf Hnd Hstep. unfold recompute. rewrite Hf at 2.
  rewrite fold_left_app. simpl.
  rewrite Hf, map_app in Hnd. simpl in Hnd.
  apply NoDup_app in Hnd as (_ & Hpre & Hpost).
  apply NoDup_cons in Hpost as [Hpost _].
  rewrite recompute_fold_other; [|now rewrite <- list_elem_of_In].
  rewrite Hstep. unfold data_after.
  rewrite recompute_fold_other; [reflexivity|].
  rewrite <- list_elem_of_In. intros Hin. apply (Hpre _ Hin). left.
Qed.

End EvaluatorFacts.

(** The part of the coercion that does give [0]: a value whose text is not
    a number ([isNaN(Number(value))]), such as ["abc"] or [["a", "b"]]. *)
Lemma not_a_number_substitutes_0 `{Engine} (value : FieldValue) :
  isNaN_Number value = true -> toString (numericValue value) = "0"%string.
Proof. intros Hn. unfold numericValue. now rewrite Hn. Qed.

(** C2, at the inputs where the code departs from it. For the empty
    string, for a missing value and for the empty array, [Number] gives [0]
    and not [NaN], so the text substituted is that of [parseFloat("")],
    which is [NaN]: with the field [A] empty, the formula [A + 1] becomes
    [NaN + 1], the whitelist refuses it and the derived value stays as it
    was, in the component and in the class alike. An array with the one
    element ["3"] is read as the number 3. *)
Theorem empty_value_substitutes_NaN `{Engine} :
  toString (numericValue (or_empty (VStr ""))) = "NaN"%string /\
  toString (numericValue (or_empty VUndefined)) = "NaN"%string /\
  toString (numericValue (or_empty (VArr []))) = "NaN"%string /\
  toString (numericValue (or_empty (VArr ["3"%string]))) = show_number "3" /\
  substituteLabels escapeLabel fields_increment
    (derived_field "c" "C" "A + 1") data_untouched = "NaN + 1"%string /\
  substituteLabels escapeLabel_class fields_increment
    (derived_field "c" "C" "A + 1") data_untouched = "NaN + 1"%string /\
  substituteLabels escapeLabel fields_increment
    (derived_field "c" "C" "A + 1") ∅ = "NaN + 1"%string /\
  recompute escapeLabel fields_increment data_untouched = (data_untouched, []) /\
  recompute escapeLabel_class fields_increment data_untouched = (data_untouched, []).
Proof. repeat split; vm_compute; reflexivity. Qed.

(** With [3] and [4] in the fields [A] and [B], the derived field with the
    formula [A + B] gets the value [7]. *)
Example derived_sum :
  @recompute sample_engine escapeLabel fields_sum data_3_4
  = (<["c" := VStr "7"]> data_3_4, [Evaluated "3 + 4"]) /\
  @recompute sample_engine escapeLabel_class fields_sum data_3_4
  = (<["c" := VStr "7"]> data_3_4, [Evaluated "3 + 4"]).
Proof. split; vm_compute; reflexivity. Qed.

(** C3. Let the pass reach the derived field [field] of a form with distinct
    field ids. If the formula after substitution has a character other
    than digits, [+ - * / ( ) .] and the space, nothing is evaluated, the
    step changes neither the value map nor the log, and the field's value
    after the pass is its value before. If the evaluation throws, the value
    map is the same after the step, and the field's value after the pass is
    its value before. This is the case of the formula [A; alert(1)] whenever
    no label of another field can take the semicolon away. *)
Theorem rejected_formula_keeps_value `{Engine} (escape : string -> pattern)
    (fields pre post : list FormField) (field : FormField) (data : FormData) :
  fields = pre ++ field :: post ->
  NoDup (map field_id fields) ->
  let reached := data_after escape fields pre data in
  let formula := substituteLabels escape fields field reached in
  (string_forall is_formula_char formula = false ->
   (forall log, recomputeField escape fields (reached, log) field = (reached, log)) /\
   fst (recompute escape fields data) !! field_id field = data !! field_id field) /\
  (run_formula formula = None ->
   (forall log, fst (recomputeField escape fields (reached, log) field) = reached) /\
   fst (recompute escape fields data) !! field_id field = data !! field_id field) /\
  (derivedFormula field = "A; alert(1)"%string ->
   (forall f, In f fields -> field_id f <> field_id field ->
              avoids ";" (escape (field_label f)) = true) ->
   string_forall is_formula_char formula = false /\
   fst (recompute escape fields data) !! field_id field = data !! field_id field).
Proof.
  intros Hf Hnd reached formula.
  assert (Hrej : string_forall is_formula_char formula = false ->
                 fst (recompute escape fields data) !! field_id field
                 = data !! field_id field).
  { intros Hs. apply (recompute_keeps escape fields pre field post data Hf Hnd).
    unfold data_after. destruct (fold_left _ pre (data, [])) as [d l] eqn:E.
    subst reached formula. unfold data_after in Hs. rewrite E in Hs. simpl in Hs.
    now rewrite recomputeField_rejected. }
  split; [|split].
  - intros Hs. split; [|now apply Hrej].
    intros log. now apply recomputeField_rejected.
  - intros Hs. split.
    + intros log. now apply recomputeField_throws.
    + apply (recompute_keeps escape fields pre field post data Hf Hnd).
      unfold data_after. destruct (fold_left _ pre (data, [])) as [d l] eqn:E.
      subst reached formula. unfold data_after in Hs. rewrite E in Hs. simpl in Hs.
      now rewrite recomputeField_throws.
  - intros Hformula Hav.
    assert (Hs : string_forall is_formula_char formula = false).
    { apply (occurs_forall ";"); [reflexivity|].
      apply substituteLabels_occurs; [exact Hav|]. now rewrite Hformula. }
    split; [exact Hs | now apply Hrej].
Qed.

Lemma rejected_formula_keeps_value_witness :
  fst (@recompute sample_engine escapeLabel fields_unsafe data_3_old) !! "c"
  = Some (VStr "old") /\
  fst (@recompute sample_engine escapeLabel fields_unbalanced data_3_old) !! "c"
  = Some (VStr "old").
Proof.
  split.
  - refine (proj2 (proj2 (proj2 (@rejected_formula_keeps_value sample_engine
      escapeLabel fields_unsafe
      [input_field "a" "A"; input_field "b" "B"] []
      (derived_field "c" "C" "A; alert(1)") data_3_old eq_refl _)) eq_refl _)).
    + distinct_ids.
    + intros f [<-|[<-|[<-|[]]]] Hne; reflexivity.
  - refine (proj2 (proj1 (proj2 (@rejected_formula_keeps_value sample_engine
      escapeLabel fields_unbalanced
      [input_field "a" "A"] []
      (derived_field "c" "C" "(A + 1") data_3_old eq_refl _)) _)).
    + distinct_ids.
    + reflexivity.
Defined.

(** C4. In the formula of a derived field, the labels that are substituted
    are those of the fields whose id is not its own, in the order of the
    form: the result is the same as substituting over the form without the
    fields of that id, it does not depend on the value stored under that
    id, and when no field has another id the formula stays as written, even
    where the field's own label occurs in it. *)
Theorem own_label_never_substituted `{Engine} (escape : string -> pattern)
    (fields : list FormField) (field : FormField) (data : FormData) :
  substituteLabels escape fields field data
  = fold_left
      (fun formula f =>
         replace_all (escape (field_label f))
           (toString (numericValue (or_empty (get data (field_id f))))) formula)
      (List.filter (fun f => negb (same_id (field_id field) f)) fields)
      (derivedFormula field) /\
  (forall value,
      substituteLabels escape fields field (<[field_id field := value]> data)
      = substituteLabels escape fields field data) /\
  (Forall (fun f => field_id f = field_id field) fields ->
   substituteLabels escape fields field data = derivedFormula field).
Proof.
  unfold substituteLabels, same_id. split; [|split].
  - generalize (derivedFormula field) as formula.
    induction fields as [|f fields IH]; simpl; intros formula; [reflexivity|].
    destruct (String.eqb (field_id f) (field_id field)); simpl; apply IH.
  - intros value. generalize (derivedFormula field) as formula.
    induction fields as [|f fields IH]; simpl; intros formula; [reflexivity|].
    destruct (String.eqb_spec (field_id f) (field_id field)) as [E|NE]; simpl.
    + apply IH.
    + unfold get at 2. rewrite lookup_insert_ne by congruence. apply IH.
  - generalize (derivedFormula field) as formula.
    induction 1 as [|f fields E _ IH]; simpl; [reflexivity|].
    rewrite E, String.eqb_refl. simpl. apply IH.
Qed.

Lemma own_label_never_substituted_witness :
  @substituteLabels sample_engine escapeLabel fields_self
    (derived_field "c" "C" "C + 1") data_3_old = "C + 1"%string.
Proof.
  apply (proj2 (proj2 (@own_label_never_substituted sample_engine escapeLabel
           fields_self (derived_field "c" "C" "C + 1") data_3_old))).
  repeat constructor.
Defined.

(** C10. A pass writes only under the ids of the fields it recomputes, which
    are the derived fields with a formula: the entry of every id under
    which the form has no such field is the same after the pass, so in a
    form with distinct field ids the entry of every field that is not
    derived, or has an empty formula, is the same; and the error map after
    the pass is the error map before, in the class and in the component. *)
Theorem recompute_writes_only_derived `{Engine} (escape : string -> pattern)
    (fields : list FormField) (data : FormData) :
  (forall id,
      (forall f, In f fields -> field_id f = id -> computed f = false) ->
      fst (recompute escape fields data) !! id = data !! id) /\
  (forall field,
      NoDup (map field_id fields) -> In field fields ->
      isDerived field = false \/ derivedFormula field = ""%string ->
      fst (recompute escape fields data) !! field_id field = data !! field_id field) /\
  (forall st,
      FormPreview.formErrors (fst (FormPreview.updateDerivedFields st))
      = FormPreview.formErrors st) /\
  (forall st form,
      Component.formErrors (fst (Component.updateDerivedFields data form st))
      = Component.formErrors st).
Proof.
  split; [|split; [|split]].
  - intros id Hid. unfold recompute. now rewrite recompute_fold_frame.
  - intros field Hnd Hin Hfield. unfold recompute.
    rewrite recompute_fold_frame; [reflexivity|].
    intros f Hf Hid.
    assert (f = field) as ->.
    { apply list_elem_of_In in Hf, Hin.
      apply list_elem_of_lookup in Hf as [i Hi], Hin as [j Hj].
      assert (i = j) as ->; [|congruence].
      apply (NoDup_lookup (map field_id fields) i j (field_id field)); [exact Hnd| |].
      - now rewrite list_lookup_fmap, Hi, <- Hid.
      - now rewrite list_lookup_fmap, Hj. }
    unfold computed. destruct Hfield as [->| ->]; [reflexivity | apply andb_false_r].
  - intros st. unfold FormPreview.updateDerivedFields.
    now destruct (recompute _ _ _).
  - intros st form. unfold Component.updateDerivedFields.
    now destruct (recompute _ _ _).
Qed.

Lemma recompute_writes_only_derived_witness :
  fst (@recompute sample_engine escapeLabel fields_sum data_3_4) !! "a"
  = Some (VStr "3") /\
  fst (@recompute sample_engine escapeLabel fields_sum data_3_4) !! "c"
  = Some (VStr "7").
Proof.
  split; [|reflexivity].
  apply (proj1 (proj2 (@recompute_writes_only_derived sample_engine escapeLabel
           fields_sum data_3_4)) (input_field "a" "A")).
  - distinct_ids.
  - now left.
  - now left.
Defined.

(** ** Field editor: validation rules *)

Lemma has_validation_kinds type field :
  has_validation type field = true <-> In type (kinds field).
Proof.
  unfold has_validation, kinds. rewrite existsb_exists, in_map_iff.
  split; intros (v & H1 & H2).
  - apply bool_decide_eq_true in H2. eauto.
  - exists v. split; [assumption|]. now apply bool_decide_eq_true.
Qed.

Lemma has_validation_absent type field :
  has_validation type field = false <-> ~ In type (kinds field).
Proof.
  rewrite <- has_validation_kinds. destruct (has_validation type field); intuition congruence.
Qed.

Lemma one_rule_per_kind_add type field :
  one_rule_per_kind field -> has_validation type field = false ->
  one_rule_per_kind
    (set_validations field (validations field ++ [new_validation type])).
Proof.
  unfold one_rule_per_kind. intros Hnd Habs%has_validation_absent. simpl.
  rewrite map_app. simpl. apply NoDup_app. split; [exact Hnd|]. split.
  - intros x Hx [->|[]]%list_elem_of_In. apply Habs.
    now apply list_elem_of_In.
  - destruct type; apply NoDup_singleton.
Qed.

Lemma count_kind_present type field :
  one_rule_per_kind field -> In type (kinds field) -> count_kind type field = 1.
Proof.
  unfold one_rule_per_kind, count_kind, kinds.
  induction (validations field) as [|v vs IH]; simpl; intros Hnd Hin; [contradiction|].
  apply NoDup_cons in Hnd as [Hv Hnd].
  destruct (bool_decide (rule_type v = type)) eqn:E.
  - apply bool_decide_eq_true in E. subst type. simpl. f_equal.
    clear IH Hin. induction vs as [|w vs IH]; simpl; [reflexivity|].
    apply not_elem_of_cons in Hv as [Hne Hv].
    apply NoDup_cons in Hnd as [_ Hnd].
    rewrite bool_decide_eq_false_2 by congruence. auto.
  - apply bool_decide_eq_false in E. destruct Hin as [|Hin]; [contradiction|]. auto.
Qed.

Lemma extends_refl field : extends field field.
Proof. split; [reflexivity|]. exists []. now rewrite app_nil_r. Qed.

Lemma extends_trans f1 f2 f3 : extends f1 f2 -> extends f2 f3 -> extends f1 f3.
Proof.
  intros [E1 [m1 H1]] [E2 [m2 H2]]. split; [congruence|].
  exists (m1 ++ m2). now rewrite H2, H1, app_assoc.
Qed.

Lemma extends_kinds f1 f2 type : extends f1 f2 -> In type (kinds f1) -> In type (kinds f2).
Proof.
  intros [_ [more E]]. unfold kinds. rewrite E, map_app, in_app_iff. auto.
Qed.

(** *** The [FormBuilder] class *)


Lemma find_update_found fieldId fieldId' change fs :
  (forall f, field_id (change f) = field_id f) ->
  FormBuilder.find_field fieldId (FormBuilder.update_found fieldId' change fs)
  = if String.eqb fieldId' fieldId
    then option_map change (FormBuilder.find_field fieldId fs)
    else FormBuilder.find_field fieldId fs.
Proof.
  intros Hid. unfold FormBuilder.find_field.
  induction fs as [|f fs IH]; simpl; [now destruct (String.eqb _ _)|].
  unfold same_id in *.
  destruct (String.eqb_spec (field_id f) fieldId') as [E'|NE']; simpl.
  - rewrite Hid. destruct (String.eqb_spec (field_id f) fieldId) as [E|NE].
    + rewrite <- E', <- E, String.eqb_refl. reflexivity.
    + destruct (String.eqb_spec fieldId' fieldId); [congruence | reflexivity].
  - destruct (String.eqb_spec (field_id f) fieldId) as [E|NE].
    + destruct (String.eqb_spec fieldId' fieldId); [congruence | reflexivity].
    + exact IH.
Qed.

Lemma Forall_update_found (P : FormField -> Prop) fieldId change fs field :
  FormBuilder.find_field fieldId fs = Some field ->
  P (change field) -> Forall P fs ->
  Forall P (FormBuilder.update_found fieldId change fs).
Proof.
  unfold FormBuilder.find_field.
  induction fs as [|f fs IH]; simpl; intros Hfind Hp Hall; [constructor|].
  apply Forall_cons in Hall as [Hf Hall].
  destruct (same_id fieldId f).
  - injection Hfind as ->. now constructor.
  - constructor; auto.
Qed.

Lemma addValidation_well_formed fieldId type form :
  well_formed form -> well_formed (fst (FormBuilder.addValidation fieldId type form)).
Proof.
  unfold well_formed, FormBuilder.addValidation. intros Hwf.
  destruct (FormBuilder.find_field fieldId (fields form)) as [field|] eqn:Hfind;
    [|exact Hwf].
  destruct (has_validation type field) eqn:Hhas; [exact Hwf|]. simpl.
  apply (Forall_update_found _ _ _ _ field Hfind); [|exact Hwf].
  apply one_rule_per_kind_add; [|exact Hhas].
  apply find_some in Hfind as [Hin _].
  rewrite Forall_forall in Hwf. apply Hwf. now apply list_elem_of_In.
Qed.

Lemma addValidations_well_formed calls form :
  well_formed form -> well_formed (FormBuilder.addValidations calls form).
Proof.
  unfold FormBuilder.addValidations. revert form.
  induction calls as [|call calls IH]; simpl; intros form Hwf; [exact Hwf|].
  apply IH. now apply addValidation_well_formed.
Qed.

(** A call keeps every field findable and only adds rules to it; the field
    it is made on has the kind afterwards. *)
Lemma addValidation_find fieldId fieldId' type form field :
  FormBuilder.find_field fieldId (fields form) = Some field ->
  exists field',
    FormBuilder.find_field fieldId
      (fields (fst (FormBuilder.addValidation fieldId' type form))) = Some field' /\
    extends field field' /\
    (fieldId' = fieldId -> In type (kinds field')).
Proof.
  intros Hfind. unfold FormBuilder.addValidation.
  destruct (FormBuilder.find_field fieldId' (fields form)) as [found|] eqn:Hfound.
  - destruct (has_validation type found) eqn:Hhas; simpl.
    + exists field. split; [exact Hfind|]. split; [apply extends_refl|].
      intros ->. apply has_validation_kinds. congruence.
    + rewrite find_update_found by reflexivity.
      destruct (String.eqb_spec fieldId' fieldId) as [->|NE].
      * rewrite Hfind. simpl. eexists. split; [reflexivity|]. split.
        -- split; [reflexivity|]. simpl. eauto.
        -- intros _. unfold kinds. simpl. rewrite map_app, in_app_iff. right. now left.
      * exists field. split; [exact Hfind|]. split; [apply extends_refl | congruence].
  - simpl. exists field. split; [exact Hfind|]. split; [apply extends_refl|].
    intros ->. congruence.
Qed.

Lemma addValidations_find calls fieldId form field :
  FormBuilder.find_field fieldId (fields form) = Some field ->
  exists field',
    FormBuilder.find_field fieldId (fields (FormBuilder.addValidations calls form))
    = Some field' /\
    extends field field' /\
    (forall type, In (fieldId, type) calls -> In type (kinds field')).
Proof.
  unfold FormBuilder.addValidations. revert form field.
  induction calls as [|[fieldId' type] calls IH]; simpl; intros form field Hfind.
  - exists field. split; [exact Hfind|]. split; [apply extends_refl | contradiction].
  - destruct (addValidation_find fieldId fieldId' type form field Hfind)
      as (f1 & Hf1 & Hext1 & Hkind1).
    destruct (IH _ _ Hf1) as (f2 & Hf2 & Hext2 & Hkind2).
    exists f2. split; [exact Hf2|]. split; [eapply extends_trans; eassumption|].
    intros ty [[= -> ->]|Hin]; [|auto].
    eapply extends_kinds; [exact Hext2 | auto].
Qed.

Lemma addField_well_formed id form :
  well_formed form -> well_formed (fst (FormBuilder.addField id form)).
Proof.
  unfold well_formed. simpl. intros Hwf. apply Forall_app. split; [exact Hwf|].
  repeat constructor.
Qed.

(** *** The component *)

Lemma updateField_validations_well_formed fieldId value form :
  NoDup (map rule_type value) -> well_formed form ->
  well_formed (Component.updateField_validations fieldId value form).
Proof.
  unfold well_formed. simpl. intros Hv Hwf.
  apply Forall_map. eapply Forall_impl; [exact Hwf|].
  intros f Hf. simpl. now destruct (String.eqb (field_id f) fieldId).
Qed.

Lemma click_addValidation_well_formed index type form :
  well_formed form ->
  well_formed (fst (Component.click_addValidation index type form)).
Proof.
  intros Hwf. unfold Component.click_addValidation.
  destruct (fields form !! index) as [field|] eqn:Hi; [|exact Hwf].
  unfold Component.addValidation.
  destruct (has_validation type field) eqn:Hhas; [exact Hwf|]. simpl.
  apply updateField_validations_well_formed; [|exact Hwf].
  apply (one_rule_per_kind_add type field); [|exact Hhas].
  unfold well_formed in Hwf. rewrite Forall_forall in Hwf.
  apply Hwf. now apply list_elem_of_lookup_2 in Hi.
Qed.

Lemma clicks_addValidation_well_formed clicks form :
  well_formed form -> well_formed (Component.clicks_addValidation clicks form).
Proof.
  unfold Component.clicks_addValidation. revert form.
  induction clicks as [|click clicks IH]; simpl; intros form Hwf; [exact Hwf|].
  apply IH. now apply click_addValidation_well_formed.
Qed.

(** After a click on the button of a kind, the field of that editor has a
    rule of the kind. *)
Lemma click_addValidation_present index type form field :
  fields form !! index = Some field ->
  exists field',
    fields (fst (Component.click_addValidation index type form)) !! index
    = Some field' /\ In type (kinds field').
Proof.
  intros Hi. unfold Component.click_addValidation. rewrite Hi.
  unfold Component.addValidation.
  destruct (has_validation type field) eqn:Hhas; simpl.
  - exists field. split; [exact Hi|]. now apply has_validation_kinds.
  - rewrite list_lookup_fmap, Hi. simpl. rewrite String.eqb_refl.
    eexists. split; [reflexivity|].
    unfold kinds. simpl. rewrite map_app, in_app_iff. right. now left.
Qed.

Lemma click_addValidation_rejected index type form field :
  fields form !! index = Some field -> In type (kinds field) ->
  Component.click_addValidation index type form
  = (form, [Alert "This validation is already added!"]).
Proof.
  intros Hi Hin%has_validation_kinds.
  unfold Component.click_addValidation, Component.addValidation.
  now rewrite Hi, Hin.
Qed.

Lemma addValidation_rejected fieldId type form field :
  FormBuilder.find_field fieldId (fields form) = Some field -> In type (kinds field) ->
  FormBuilder.addValidation fieldId type form
  = (form, [Alert "This validation is already added!"]).
Proof.
  intros Hfind Hin%has_validation_kinds.
  unfold FormBuilder.addValidation. now rewrite Hfind, Hin.
Qed.

(** C7. On a form whose fields have at most one rule of each kind (the
    empty form is one, and [addField] keeps a form so), in the class and in
    the component: adding a kind that the field already has changes
    nothing and only shows the notice; after any sequence of [addValidation]
    calls every field still has at most one rule of each kind; and when
    minLength was asked for on a field, twice or more, that field has
    exactly one minLength rule. *)
Theorem duplicate_validation_rejected (form : FormSchema) :
  well_formed form ->
  (well_formed FormBuilder.createEmptyForm /\
   forall id, well_formed (fst (FormBuilder.addField id form))) /\
  (forall fieldId type field,
      FormBuilder.find_field fieldId (fields form) = Some field ->
      In type (kinds field) ->
      FormBuilder.addValidation fieldId type form
      = (form, [Alert "This validation is already added!"])) /\
  (forall calls, well_formed (FormBuilder.addValidations calls form)) /\
  (forall calls fieldId field,
      FormBuilder.find_field fieldId (fields form) = Some field ->
      In (fieldId, minLength) calls ->
      exists field',
        FormBuilder.find_field fieldId (fields (FormBuilder.addValidations calls form))
        = Some field' /\ count_kind minLength field' = 1) /\
  (forall index type field,
      fields form !! index = Some field ->
      In type (kinds field) ->
      Component.click_addValidation index type form
      = (form, [Alert "This validation is already added!"])) /\
  (forall clicks, well_formed (Component.clicks_addValidation clicks form)) /\
  (forall clicks index field,
      fields (Component.clicks_addValidation clicks form) !! index = Some field ->
      exists field',
        fields (Component.clicks_addValidation
                  (clicks ++ [(index, minLength); (index, minLength)]) form) !! index
        = Some field' /\ count_kind minLength field' = 1).
Proof.
  intros Hwf. repeat split.
  - constructor.
  - intros id. now apply addField_well_formed.
  - intros fieldId type field. apply addValidation_rejected.
  - intros calls. now apply addValidations_well_formed.
  - intros calls fieldId field Hfind Hin.
    destruct (addValidations_find calls fieldId form field Hfind)
      as (field' & Hfind' & _ & Hkinds).
    exists field'. split; [exact Hfind'|].
    apply count_kind_present; [|auto].
    pose proof (addValidations_well_formed calls form Hwf) as Hwf'.
    unfold well_formed in Hwf'. rewrite Forall_forall in Hwf'.
    apply Hwf'. apply find_some in Hfind' as [Hin' _]. now apply list_elem_of_In.
  - intros index type field. apply click_addValidation_rejected.
  - intros clicks. now apply clicks_addValidation_well_formed.
  - intros clicks index field Hi.
    unfold Component.clicks_addValidation in *. rewrite fold_left_app. simpl.
    set (form1 := fold_left _ clicks form) in *.
    assert (Hwf1 : well_formed form1)
      by now apply clicks_addValidation_well_formed.
    destruct (click_addValidation_present index minLength form1 field Hi)
      as (f1 & Hf1 & Hk1).
    rewrite (click_addValidation_rejected index minLength _ f1 Hf1 Hk1). simpl.
    exists f1. split; [exact Hf1|].
    apply count_kind_present; [|exact Hk1].
    pose proof (click_addValidation_well_formed index minLength form1 Hwf1) as Hwf2.
    unfold well_formed in Hwf2. rewrite Forall_forall in Hwf2.
    apply Hwf2. now apply list_elem_of_lookup_2 in Hf1.
Qed.

Lemma duplicate_validation_rejected_witness :
  exists field',
    FormBuilder.find_field "f1"
      (fields (FormBuilder.addValidations
                 [("f1", minLength); ("f1", minLength)]%string form_one_field))
    = Some field' /\ count_kind minLength field' = 1.
Proof.
  assert (Hwf : well_formed form_one_field) by (repeat constructor).
  destruct (duplicate_validation_rejected form_one_field Hwf)
    as (_ & _ & _ & Htwice & _).
  apply (Htwice _ "f1"%string (new_field "f1")); [reflexivity | now left].
Defined.

(** ** Submitting the form *)

Lemma hasErrors_spec (errors : FormErrors) :
  hasErrors errors = true <->
  exists id error, errors !! id = Some error /\ error <> ""%string.
Proof.
  unfold hasErrors. rewrite existsb_exists. split.
  - intros ([id error] & Hin & Hne). exists id, error. split.
    + now apply elem_of_map_to_list, list_elem_of_In.
    + now apply nonempty_true.
  - intros (id & error & Hl & Hne). exists (id, error). split.
    + now apply list_elem_of_In, elem_of_map_to_list.
    + now apply nonempty_true.
Qed.

Lemma hasErrors_insert id error (errors : FormErrors) :
  nonempty error = true -> hasErrors (<[id := error]> errors) = true.
Proof.
  intros Hne. apply hasErrors_spec. exists id, error.
  split; [apply lookup_insert_eq | now apply nonempty_true].
Qed.

Lemma validateForm_fold formData fs (errors : FormErrors) :
  hasErrors
    (fold_left
       (fun errors field =>
          let value := get formData (field_id field) in
          let error := validateField field value in
          if nonempty error then <[field_id field := error]> errors else errors)
       fs errors)
  = hasErrors errors || existsb (field_fails formData) fs.
Proof.
  revert errors. induction fs as [|f fs IH]; intros errors; simpl.
  - now rewrite orb_false_r.
  - rewrite IH. unfold field_fails at 2.
    destruct (nonempty (validateField f (get formData (field_id f)))) eqn:E; simpl.
    + rewrite hasErrors_insert by exact E. now rewrite orb_true_r.
    + reflexivity.
Qed.

(** The error map of [validateForm] has a non-empty message exactly when
    some field of the form fails. *)
Lemma hasErrors_validateForm fs formData :
  hasErrors (validateForm fs formData) = existsb (field_fails formData) fs.
Proof.
  unfold validateForm. rewrite validateForm_fold.
  reflexivity.
Qed.

Lemma recomputeField_log `{Engine} escape fields state field :
  Forall is_evaluation (snd state) ->
  Forall is_evaluation (snd (recomputeField escape fields state field)).
Proof.
  destruct state as [data log]. unfold recomputeField. simpl. intros Hlog.
  destruct (isDerived field && nonempty (derivedFormula field)); [|exact Hlog].
  destruct (matches formula_whitelist _); [|exact Hlog].
  destruct (run_formula _); simpl; apply Forall_app; split; auto;
    repeat constructor.
Qed.

Lemma recompute_log `{Engine} escape fields data :
  Forall is_evaluation (snd (recompute escape fields data)).
Proof.
  unfold recompute.
  assert (Hgen : forall fs state, Forall is_evaluation (snd state) ->
            Forall is_evaluation (snd (fold_left (recomputeField escape fields) fs state))).
  { induction fs as [|f fs IH]; simpl; intros state Hs; [exact Hs|].
    apply IH. now apply recomputeField_log. }
  apply Hgen. constructor.
Qed.

Lemma existsb_field_fails formData fs :
  existsb (field_fails formData) fs = true <->
  Exists (fun f => validateField f (get formData (field_id f)) <> ""%string) fs.
Proof.
  rewrite existsb_exists, Exists_exists. unfold field_fails.
  split; intros (f & Hin & Hf); exists f.
  - split; [now apply list_elem_of_In | now apply nonempty_true].
  - split; [now apply list_elem_of_In | now apply nonempty_true].
Qed.

(** C8. Submitting validates every field of the form with [validateForm]
    and keeps the resulting error map. When some field fails, the notice of
    the validation failure is shown and the success notice is not; when no
    field fails, the only effect is the success notice, which carries the
    current value map. So it is in the class and in the component. *)
Theorem submit_gated_by_validation `{Engine} :
  (forall st : FormPreview.State,
      let fs := fields (FormPreview.form st) in
      let data := FormPreview.formData st in
      let result := FormPreview.handleFormSubmit st in
      FormPreview.formErrors (fst result) = validateForm fs data /\
      (Exists (fun f => validateField f (get data (field_id f)) <> ""%string) fs ->
       hasErrors (validateForm fs data) = true /\
       (exists log,
           snd result
           = Alert "Please fix the errors in the form before submitting." :: log) /\
       forall shown, ~ In (AlertSubmitted shown) (snd result)) /\
      (Forall (fun f => validateField f (get data (field_id f)) = ""%string) fs ->
       hasErrors (validateForm fs data) = false /\
       result = (FormPreview.set_formErrors st (validateForm fs data),
                 [AlertSubmitted data]))) /\
  (forall st : Component.State,
      let fs := fields (Component.currentForm st) in
      let data := Component.formData st in
      let result := Component.handleFormSubmit st in
      Component.formErrors (fst result) = validateForm fs data /\
      Component.formData (fst result) = data /\
      (Exists (fun f => validateField f (get data (field_id f)) <> ""%string) fs ->
       snd result = [Alert "Please fix the errors in the form before submitting."]) /\
      (Forall (fun f => validateField f (get data (field_id f)) = ""%string) fs ->
       snd result = [AlertSubmitted data])).
Proof.
  split.
  - intros st fs data result. subst result. unfold FormPreview.handleFormSubmit.
    fold fs data. rewrite hasErrors_validateForm.
    destruct (existsb (field_fails data) fs) eqn:E.
    + assert (Hshape : exists data' log,
                 FormPreview.renderPreview
                   (FormPreview.set_formErrors st (validateForm fs data))
                 = (FormPreview.set_formData
                      (FormPreview.set_formErrors st (validateForm fs data)) data',
                    RenderPreview :: log) /\ Forall is_evaluation log).
      { unfold FormPreview.renderPreview, FormPreview.updateDerivedFields. simpl.
        fold fs. destruct fs as [|f fs']; [discriminate|].
        pose proof (recompute_log escapeLabel_class (f :: fs') (FormPreview.formData st)) as Hlog.
        destruct (recompute _ _ _) as [data' log]. eauto. }
      destruct Hshape as (data' & log & -> & Hlog). simpl.
      split; [reflexivity|]. split.
      * intros _. split; [reflexivity|]. split; [eauto|].
        intros shown [[=]|[[=]|Hin]].
        rewrite Forall_forall in Hlog. apply list_elem_of_In, Hlog in Hin.
        exact Hin.
      * intros Hall. apply existsb_field_fails, Exists_exists in E as (f & Hin & Hf).
        rewrite Forall_forall in Hall. destruct Hf. now apply Hall.
    + simpl. split; [reflexivity|]. split.
      * intros Hex%existsb_field_fails. congruence.
      * intros _. split; reflexivity.
  - intros st fs data result. subst result. unfold Component.handleFormSubmit.
    fold fs data. fold (hasErrors (validateForm fs data)).
    rewrite hasErrors_validateForm.
    destruct (existsb (field_fails data) fs) eqn:E; simpl.
    + split; [reflexivity|]. split; [reflexivity|]. split; [reflexivity|].
      intros Hall. apply existsb_field_fails, Exists_exists in E as (f & Hin & Hf).
      rewrite Forall_forall in Hall. destruct Hf. now apply Hall.
    + split; [reflexivity|]. split; [reflexivity|]. split; [|reflexivity].
      intros Hex%existsb_field_fails. congruence.
Qed.

Lemma submit_gated_by_validation_witness :
  (exists log,
      snd (@FormPreview.handleFormSubmit sample_engine state_required_empty)
      = Alert "Please fix the errors in the form before submitting." :: log) /\
  snd (@FormPreview.handleFormSubmit sample_engine state_required_filled)
  = [AlertSubmitted (<["f1" := VStr "abc"]> ∅)].
Proof.
  split.
  - destruct (proj1 (@submit_gated_by_validation sample_engine) state_required_empty)
      as (_ & Hfail & _).
    apply Hfail. constructor. discriminate.
  - destruct (proj1 (@submit_gated_by_validation sample_engine) state_required_filled)
      as (_ & _ & Hok).
    destruct Hok as [_ ->]; [|reflexivity].
    repeat constructor.
Defined.

(** ** Saved forms *)

Lemma find_app_last {A} (p : A -> bool) (l : list A) (x : A) :
  List.find p (l ++ [x])
  = match List.find p l with
    | Some y => Some y
    | None => if p x then Some x else None
    end.
Proof.
  induction l as [|y l IH]; simpl; [reflexivity|].
  now destruct (p y).
Qed.

Lemma find_id_is_new id forms :
  id_is_new id forms ->
  List.find (fun form => String.eqb (form_id form) id) forms = None.
Proof.
  induction 1 as [|g forms Hg _ IH]; simpl; [reflexivity|].
  now destruct (String.eqb_spec (form_id g) id).
Qed.

Lemma getFormById_after_save form storage :
  Component.StorageManager_getFormById (form_id form)
    (Component.StorageManager_saveForm form storage)
  = match Component.StorageManager_getFormById (form_id form) storage with
    | Some earlier => Some earlier
    | None => Some form
    end.
Proof.
  unfold Component.StorageManager_getFormById, Component.StorageManager_saveForm.
  rewrite find_app_last, String.eqb_refl. reflexivity.
Qed.

(** C9, as the code has it. Saving appends to the saved forms and loading
    by id returns the first saved form with that id: a form saved under an
    id that no saved form has yet is loaded back equal to what was saved,
    with its fields, their order, validations and options; under an id
    already in use the form saved earlier is loaded. So it is for the
    store in memory, for the store in [localStorage] when the write is
    accepted, and for the form that [saveForm(name)] of the component
    builds from the current fields. *)
Theorem saved_form_loaded_when_id_is_new `{StorageManager.Quota} (form : FormSchema) :
  (forall storage,
      id_is_new (form_id form) storage ->
      Component.StorageManager_getFormById (form_id form)
        (Component.StorageManager_saveForm form storage) = Some form) /\
  (forall storage earlier,
      Component.StorageManager_getFormById (form_id form) storage = Some earlier ->
      Component.StorageManager_getFormById (form_id form)
        (Component.StorageManager_saveForm form storage) = Some earlier) /\
  (forall ls ls',
      id_is_new (form_id form) (StorageManager.saved ls) ->
      StorageManager.saveForm form ls = StorageManager.Ok ls' ->
      StorageManager.getFormById (form_id form) ls' = StorageManager.Ok (Some form)) /\
  (forall st name now,
      fields form <> [] ->
      Component.currentForm st = form ->
      id_is_new (form_id form) (Component.savedFormsStorage st) ->
      Component.StorageManager_getFormById (form_id form)
        (Component.savedFormsStorage (fst (Component.saveForm name (form_id form) now st)))
      = Some {| form_id := form_id form; form_name := name;
                fields := fields form; createdAt := now |}).
Proof.
  split; [|split; [|split]].
  - intros storage Hnew. rewrite getFormById_after_save.
    unfold Component.StorageManager_getFormById. now rewrite find_id_is_new.
  - intros storage earlier Hold. now rewrite getFormById_after_save, Hold.
  - intros ls ls' Hnew. unfold StorageManager.saveForm, StorageManager.saved in *.
    destruct (StorageManager.getSavedForms ls) as [savedForms|other] eqn:Hs;
      [|discriminate].
    destruct (StorageManager.accepts _ _ _); [|discriminate].
    intros [= <-]. unfold StorageManager.getFormById, StorageManager.getSavedForms.
    rewrite lookup_insert_eq, find_app_last, find_id_is_new by exact Hnew.
    now rewrite String.eqb_refl.
  - intros st name now Hfields Hform Hnew. unfold Component.saveForm.
    rewrite Hform. destruct (fields form) as [|f fs] eqn:Hfs; [congruence|]. simpl.
    unfold Component.StorageManager_getFormById, Component.StorageManager_saveForm.
    rewrite find_app_last, find_id_is_new by exact Hnew. simpl.
    now rewrite String.eqb_refl.
Qed.

Lemma saved_form_loaded_when_id_is_new_witness :
  Component.StorageManager_getFormById "2"
    (Component.StorageManager_saveForm form_other [form_old]) = Some form_other /\
  @StorageManager.getFormById "2"
    (<[StorageManager.SAVED_FORMS := StorageManager.FormsJson [form_old; form_other]]> ∅)
  = StorageManager.Ok (Some form_other).
Proof.
  destruct (@saved_form_loaded_when_id_is_new StorageManager.unlimited form_other)
    as (Hmem & _ & Hlocal & _).
  split.
  - apply Hmem. repeat constructor. discriminate.
  - apply (Hlocal (<[StorageManager.SAVED_FORMS := StorageManager.FormsJson [form_old]]> ∅)).
    + repeat constructor. discriminate.
    + vm_compute. reflexivity.
Defined.

(** C9 as stated fails: a form saved under the id of a form saved earlier
    is not the one that loading by this id returns. *)
Lemma saved_form_shadowed_counterexample :
  Component.StorageManager_getFormById (form_id form_new)
    (Component.StorageManager_saveForm form_new [form_old]) = Some form_old /\
  (exists ls',
      @StorageManager.saveForm StorageManager.unlimited form_new
        (<[StorageManager.SAVED_FORMS := StorageManager.FormsJson [form_old]]> ∅)
      = StorageManager.Ok ls' /\
      StorageManager.getFormById (form_id form_new) ls'
      = StorageManager.Ok (Some form_old)) /\
  form_old <> form_new.
Proof.
  split; [reflexivity|]. split; [|discriminate].
  eexists. split; vm_compute; reflexivity.
Qed.

(** ** Further properties of the validation engine *)

Lemma validateRule_on_empty rule :
  validateRule rule (VStr "")
  = if fails_on_empty rule then rule_message rule else ""%string.
Proof.
  rewrite validateRule_fails. unfold rule_fails, fails_on_empty.
  destruct (rule_type rule); simpl; try reflexivity.
  now destruct (threshold rule).
Qed.

(** X1. On the empty string a required rule always fails, a minLength rule
    fails exactly when its threshold is positive, a maxLength rule exactly
    when its threshold is negative, and email and password rules never
    fail; so a field accepts the empty string exactly when each of its rules
    of the first three sorts, in the failing case, has an empty message.
    The minLength rule that [addValidation] creates, with the threshold 1,
    refuses the empty string. *)
Theorem empty_string_validation (field : FormField) :
  (forall rule,
      validateRule rule (VStr "")
      = if fails_on_empty rule then rule_message rule else ""%string) /\
  (validateField field (VStr "") = ""%string <->
   Forall (fun rule => fails_on_empty rule = false \/ rule_message rule = ""%string)
          (validations field)) /\
  (forall rule,
      In rule (validations field) -> rule_type rule = minLength ->
      (0 < threshold rule)%Z -> rule_message rule <> ""%string ->
      validateField field (VStr "") <> ""%string).
Proof.
  assert (Hrep : forall rule,
             reports (VStr "") rule <->
             fails_on_empty rule = true /\ rule_message rule <> ""%string).
  { intros rule. rewrite <- validateRule_reports, validateRule_on_empty.
    destruct (fails_on_empty rule); rewrite nonempty_true; intuition congruence. }
  split; [exact validateRule_on_empty|]. split.
  - unfold validateField. rewrite validateRules_empty, !Forall_forall.
    split; intros Hall rule Hin; specialize (Hall rule Hin).
    + destruct (fails_on_empty rule) eqn:E; [|now left].
      right. destruct (decide (rule_message rule = ""%string)) as [|Hne]; [assumption|].
      destruct Hall. apply Hrep. auto.
    + intros [Hf Hm]%Hrep. destruct Hall; congruence.
  - intros rule Hin Hty Hpos Hmsg Hempty.
    unfold validateField in Hempty. rewrite validateRules_empty, Forall_forall in Hempty.
    apply (Hempty rule); [now apply list_elem_of_In|].
    apply Hrep. split; [|exact Hmsg].
    unfold fails_on_empty. rewrite Hty. now apply Z.ltb_lt.
Qed.

Lemma empty_string_validation_witness :
  validateField (set_validations (new_field "f") [new_validation minLength]) (VStr "")
  <> ""%string.
Proof.
  apply (proj2 (proj2 (empty_string_validation
           (set_validations (new_field "f") [new_validation minLength])))
           (new_validation minLength)).
  - now left.
  - reflexivity.
  - reflexivity.
  - discriminate.
Defined.

Lemma validateForm_snoc fs field formData :
  validateForm (fs ++ [field]) formData
  = if field_fails formData field
    then <[field_id field := validateField field (get formData (field_id field))]>
           (validateForm fs formData)
    else validateForm fs formData.
Proof. unfold validateForm, field_fails. now rewrite fold_left_app. Qed.

Lemma validateForm_sound fs formData id error :
  validateForm fs formData !! id = Some error ->
  error <> ""%string /\
  exists field, In field fs /\ field_id field = id /\
                validateField field (get formData id) = error.
Proof.
  induction fs as [|f fs IH] using rev_ind.
  - unfold validateForm. simpl. now rewrite lookup_empty.
  - rewrite validateForm_snoc. destruct (field_fails formData f) eqn:Hf.
    + destruct (decide (field_id f = id)) as [<-|Hne].
      * rewrite lookup_insert_eq. intros [= <-].
        split; [now apply nonempty_true|].
        exists f. rewrite in_app_iff. simpl. auto.
      * rewrite lookup_insert_ne by exact Hne.
        intros (Hne' & g & Hg & Hid & Hv)%IH. split; [exact Hne'|].
        exists g. rewrite in_app_iff. auto.
    + intros (Hne' & g & Hg & Hid & Hv)%IH. split; [exact Hne'|].
      exists g. rewrite in_app_iff. auto.
Qed.

Lemma validateForm_other fs formData id :
  ~ In id (map field_id fs) -> validateForm fs formData !! id = None.
Proof.
  intros Hid. destruct (validateForm fs formData !! id) as [e|] eqn:E; [|reflexivity].
  apply validateForm_sound in E as (_ & f & Hf & Hfid & _).
  destruct Hid. rewrite <- Hfid. now apply in_map.
Qed.

(** X2. The error map of [validateForm] holds only messages that are not
    empty, each the result of [validateField] for a field of that id; in a
    form with distinct ids, a field that fails is mapped to its message and
    a field that passes has no entry; so the map has no error exactly when
    it is the empty map. *)
Theorem validateForm_entries (fs : list FormField) (formData : FormData) :
  (forall id error,
      validateForm fs formData !! id = Some error ->
      error <> ""%string /\
      exists field, In field fs /\ field_id field = id /\
                    validateField field (get formData id) = error) /\
  (NoDup (map field_id fs) ->
   forall field, In field fs ->
     validateForm fs formData !! field_id field
     = if field_fails formData field
       then Some (validateField field (get formData (field_id field)))
       else None) /\
  (hasErrors (validateForm fs formData) = false <-> validateForm fs formData = ∅).
Proof.
  split; [intros id error; apply validateForm_sound|]. split.
  - induction fs as [|f fs IH] using rev_ind; [intros _ field []|].
    rewrite map_app. simpl. intros (Hnd & Hdisj & _)%NoDup_app field Hin.
    rewrite validateForm_snoc. apply in_app_iff in Hin as [Hin|[<-|[]]].
    + assert (Hne : field_id f <> field_id field).
      { intros E. apply (Hdisj (field_id field)).
        - apply list_elem_of_In. now apply in_map.
        - rewrite E. left. }
      destruct (field_fails formData f); [rewrite lookup_insert_ne by exact Hne|];
        now apply IH.
    + destruct (field_fails formData f); [now rewrite lookup_insert_eq|].
      apply validateForm_other. intros Hin%list_elem_of_In.
      apply (Hdisj _ Hin). left.
  - split.
    + intros Hno. apply map_eq. intros id. rewrite lookup_empty.
      destruct (validateForm fs formData !! id) as [e|] eqn:E; [|reflexivity].
      pose proof (validateForm_sound _ _ _ _ E) as [Hne _].
      assert (hasErrors (validateForm fs formData) = true)
        by (apply hasErrors_spec; eauto).
      congruence.
    + intros ->. reflexivity.
Qed.

Lemma validateForm_entries_witness :
  validateForm [field_required_minLength; field_email]
    (<["f1" := VStr ""]> (<["f2" := VStr "a@b.com"]> ∅)) !! "f1"
  = Some "This field is required"%string /\
  validateForm [field_required_minLength; field_email]
    (<["f1" := VStr ""]> (<["f2" := VStr "a@b.com"]> ∅)) !! "f2" = None.
Proof.
  pose proof (proj1 (proj2 (validateForm_entries
    [field_required_minLength; field_email]
    (<["f1" := VStr ""]> (<["f2" := VStr "a@b.com"]> ∅))))) as Hentries.
  assert (Hnd : NoDup (map field_id [field_required_minLength; field_email]))
    by distinct_ids.
  split.
  - apply (Hentries Hnd field_required_minLength). now left.
  - apply (Hentries Hnd field_email). right. now left.
Defined.

(** ** Further properties of the derived-field evaluator *)

Lemma replace_fuel_not_found fuel pat repl s :
  found_in pat s = false -> replace_fuel fuel pat repl s = s.
Proof.
  revert s. induction fuel as [|fuel IH]; intros s Hs; [reflexivity|].
  simpl. destruct s as [|c s]; simpl in Hs.
  - now destruct (match_at pat "").
  - destruct (match_at pat (String c s)); [discriminate|].
    now rewrite IH.
Qed.

(** X4. When the label of no other field is found in the formula of a
    derived field, the substitution leaves the formula as it is written,
    whatever the values of the fields are. *)
Theorem unmentioned_labels_leave_formula `{Engine} (escape : string -> pattern)
    (fields : list FormField) (field : FormField) (data : FormData) :
  (forall f, In f fields -> field_id f <> field_id field ->
             found_in (escape (field_label f)) (derivedFormula field) = false) ->
  substituteLabels escape fields field data = derivedFormula field.
Proof.
  unfold substituteLabels. intros Hnot.
  assert (Hgen : forall formula,
             (forall f, In f fields -> field_id f <> field_id field ->
                        found_in (escape (field_label f)) formula = false) ->
             fold_left
               (fun formula f =>
                  if negb (String.eqb (field_id f) (field_id field)) then
                    let fieldValue := or_empty (get data (field_id f)) in
                    replace_all (escape (field_label f))
                      (toString (numericValue fieldValue)) formula
                  else formula) fields formula = formula).
  { clear Hnot. induction fields as [|f fields IH]; simpl; intros formula Hnot;
      [reflexivity|].
    destruct (String.eqb_spec (field_id f) (field_id field)) as [E|NE]; simpl.
    - apply IH. intros g Hg. apply Hnot. now right.
    - unfold replace_all. rewrite replace_fuel_not_found by (apply Hnot; auto).
      apply IH. intros g Hg. apply Hnot. now right. }
  now apply Hgen.
Qed.

Lemma unmentioned_labels_leave_formula_witness :
  @substituteLabels sample_engine escapeLabel fields_constant
    (derived_field "c" "C" "(1 + 2) * 3") data_3_old = "(1 + 2) * 3"%string.
Proof.
  apply (@unmentioned_labels_leave_formula sample_engine escapeLabel).
  intros f [<-|[<-|[]]] Hne; reflexivity.
Defined.

Lemma recompute_fold_log `{Engine} escape fields fs state :
  exists more,
    snd (fold_left (recomputeField escape fields) fs state) = snd state ++ more.
Proof.
  revert state. induction fs as [|f fs IH]; simpl; intros state.
  - exists []. now rewrite app_nil_r.
  - destruct (IH (recomputeField escape fields state f)) as [more ->].
    destruct state as [data log]. unfold recomputeField.
    destruct (isDerived f && nonempty (derivedFormula f)); [|eauto].
    destruct (matches formula_whitelist _); [|eauto].
    destruct (run_formula _); simpl; rewrite <- app_assoc; eauto.
Qed.

(** X3. In a form with distinct field ids, when the pass reaches a derived
    field with a formula, the substituted formula passes the whitelist and
    its evaluation gives [result], then after the pass the field's value is
    the text [result], and the evaluation of that formula is in the log. *)
Theorem computed_field_gets_result `{Engine} (escape : string -> pattern)
    (fields pre post : list FormField) (field : FormField) (data : FormData)
    (result : string) :
  fields = pre ++ field :: post ->
  NoDup (map field_id fields) ->
  computed field = true ->
  let reached := data_after escape fields pre data in
  let formula := substituteLabels escape fields field reached in
  matches formula_whitelist formula = true ->
  run_formula formula = Some result ->
  fst (recompute escape fields data) !! field_id field = Some (VStr result) /\
  In (Evaluated formula) (snd (recompute escape fields data)).
Proof.
  intros Hf Hnd Hc reached formula Hw Hr.
  assert (Hstep : forall log,
             recomputeField escape fields (reached, log) field
             = (<[field_id field := VStr result]> reached, log ++ [Evaluated formula])).
  { intros log. unfold recomputeField. fold (computed field). rewrite Hc.
    fold formula. now rewrite Hw, Hr. }
  unfold recompute. rewrite Hf at 2 4. rewrite fold_left_app. simpl.
  destruct (fold_left (recomputeField escape fields) pre (data, [])) as [d l] eqn:E.
  assert (d = reached) as -> by (subst reached; unfold data_after; now rewrite E).
  rewrite Hstep. split.
  - rewrite Hf, map_app in Hnd. simpl in Hnd.
    apply NoDup_app in Hnd as (_ & _ & Hpost).
    apply NoDup_cons in Hpost as [Hpost _].
    rewrite recompute_fold_other by now rewrite <- list_elem_of_In.
    simpl. apply lookup_insert_eq.
  - destruct (recompute_fold_log escape fields post
                (<[field_id field := VStr result]> reached, l ++ [Evaluated formula]))
      as [more ->].
    simpl. rewrite !in_app_iff. left. right. now left.
Qed.

Lemma computed_field_gets_result_witness :
  fst (@recompute sample_engine escapeLabel fields_sum data_3_4) !! "c"
  = Some (VStr "7") /\
  In (Evaluated "3 + 4") (snd (@recompute sample_engine escapeLabel fields_sum data_3_4)).
Proof.
  apply (@computed_field_gets_result sample_engine escapeLabel fields_sum
           [input_field "a" "A"; input_field "b" "B"] []
           (derived_field "c" "C" "A + B") data_3_4 "7").
  - reflexivity.
  - distinct_ids.
  - reflexivity.
  - reflexivity.
  - reflexivity.
Defined.

(** ** The form session *)







Lemma recompute_frame `{Engine} escape fs data id :
  not_computed id fs -> fst (recompute escape fs data) !! id = data !! id.
Proof. intros Hid. unfold recompute. now rewrite recompute_fold_frame. Qed.

Lemma preview_updateDerivedFields_parts `{Engine} (st : FormPreview.State) :
  FormPreview.form (fst (FormPreview.updateDerivedFields st)) = FormPreview.form st /\
  FormPreview.formErrors (fst (FormPreview.updateDerivedFields st))
  = FormPreview.formErrors st /\
  FormPreview.formData (fst (FormPreview.updateDerivedFields st))
  = fst (recompute escapeLabel_class (fields (FormPreview.form st))
           (FormPreview.formData st)).
Proof.
  unfold FormPreview.updateDerivedFields. now destruct (recompute _ _ _).
Qed.

Lemma component_updateDerivedFields_parts `{Engine} data form (st : Component.State) :
  Component.currentForm (fst (Component.updateDerivedFields data form st))
  = Component.currentForm st /\
  Component.formErrors (fst (Component.updateDerivedFields data form st))
  = Component.formErrors st /\
  Component.formData (fst (Component.updateDerivedFields data form st))
  = fst (recompute escapeLabel (fields form) data).
Proof.
  unfold Component.updateDerivedFields. now destruct (recompute _ _ _).
Qed.

Lemma validateField_at_errors fieldId value (st : FormPreview.State) :
  FormPreview.formErrors (FormPreview.validateField_at fieldId value st)
  = match field_of fieldId (fields (FormPreview.form st)) with
    | Some field => <[fieldId := validateField field value]> (FormPreview.formErrors st)
    | None => FormPreview.formErrors st
    end /\
  FormPreview.form (FormPreview.validateField_at fieldId value st) = FormPreview.form st /\
  FormPreview.formData (FormPreview.validateField_at fieldId value st)
  = FormPreview.formData st.
Proof.
  unfold FormPreview.validateField_at, field_of.
  now destruct (List.find _ _).
Qed.

(** X6. A change of the value of one field keeps the form, validates this
    field alone and leaves the error of every other field as it was: the
    error map gets the result of [validateField] under the id when the form
    has a field of this id, and does not change otherwise. The new value is
    what the map holds afterwards under the id, and the other values are
    kept, wherever no derived field with a formula has the id in question.
    So it is in the class and in the component. *)
Theorem field_change_revalidates_one_field `{Engine} (fieldId : string) :
  (forall (st : FormPreview.State) (value : string),
      let st' := fst (FormPreview.handleFieldChange fieldId value st) in
      let fs := fields (FormPreview.form st) in
      FormPreview.form st' = FormPreview.form st /\
      (forall id, id <> fieldId ->
                  FormPreview.formErrors st' !! id = FormPreview.formErrors st !! id) /\
      (forall field, field_of fieldId fs = Some field ->
                     FormPreview.formErrors st' !! fieldId
                     = Some (validateField field (VStr value))) /\
      (field_of fieldId fs = None ->
       FormPreview.formErrors st' = FormPreview.formErrors st) /\
      (not_computed fieldId fs ->
       FormPreview.formData st' !! fieldId = Some (VStr value)) /\
      (forall id, id <> fieldId -> not_computed id fs ->
                  FormPreview.formData st' !! id = FormPreview.formData st !! id)) /\
  (forall (st : Component.State) (value : FieldValue),
      let st' := fst (Component.handleFormDataChange fieldId value st) in
      let fs := fields (Component.currentForm st) in
      Component.currentForm st' = Component.currentForm st /\
      (forall id, id <> fieldId ->
                  Component.formErrors st' !! id = Component.formErrors st !! id) /\
      (forall field, field_of fieldId fs = Some field ->
                     Component.formErrors st' !! fieldId
                     = Some (validateField field value)) /\
      (field_of fieldId fs = None ->
       Component.formErrors st' = Component.formErrors st) /\
      (not_computed fieldId fs ->
       Component.formData st' !! fieldId = Some value) /\
      (forall id, id <> fieldId -> not_computed id fs ->
                  Component.formData st' !! id = Component.formData st !! id)).
Proof.
  split.
  - intros st value st' fs. subst st'. unfold FormPreview.handleFieldChange.
    set (st1 := FormPreview.set_formData st _).
    destruct (preview_updateDerivedFields_parts
                (FormPreview.validateField_at fieldId (VStr value) st1))
      as (-> & -> & ->).
    destruct (validateField_at_errors fieldId (VStr value) st1) as (-> & -> & ->).
    simpl. fold fs.
    split; [reflexivity|]. split; [|split; [|split; [|split]]].
    + intros id Hne. destruct (field_of fieldId fs); [|reflexivity].
      now rewrite lookup_insert_ne.
    + intros field ->. apply lookup_insert_eq.
    + now intros ->.
    + intros Hnc. rewrite recompute_frame by exact Hnc. apply lookup_insert_eq.
    + intros id Hne Hnc. rewrite recompute_frame by exact Hnc.
      now apply lookup_insert_ne.
  - intros st value st' fs. subst st'. unfold Component.handleFormDataChange.
    match goal with
    | |- context [Component.updateDerivedFields ?d ?f ?s] =>
        destruct (component_updateDerivedFields_parts d f s) as (-> & -> & ->)
    end.
    simpl. fold fs. fold (field_of fieldId fs).
    split; [reflexivity|]. split; [|split; [|split; [|split]]].
    + intros id Hne. destruct (field_of fieldId fs); [|reflexivity].
      now rewrite lookup_insert_ne.
    + intros field ->. apply lookup_insert_eq.
    + now intros ->.
    + intros Hnc. rewrite recompute_frame by exact Hnc. apply lookup_insert_eq.
    + intros id Hne Hnc. rewrite recompute_frame by exact Hnc.
      now apply lookup_insert_ne.
Qed.

Lemma field_change_revalidates_one_field_witness :
  FormPreview.formErrors
    (fst (@FormPreview.handleFieldChange sample_engine "f2" "a@b" state_colours)) !! "f2"
  = Some "Please enter a valid email address"%string /\
  FormPreview.formData
    (fst (@FormPreview.handleFieldChange sample_engine "f2" "a@b" state_colours)) !! "k"
  = Some (VArr []).
Proof.
  pose proof (proj1 (@field_change_revalidates_one_field sample_engine "f2")
                state_colours "a@b"%string) as (_ & _ & Herr & _ & _ & Hdata).
  split.
  - apply (Herr field_email). reflexivity.
  - apply (Hdata "k"%string); [discriminate|].
    intros f [<-|[<-|[]]] _; reflexivity.
Defined.

(** *** Checkbox selections *)

Lemma existsb_eqb_In option (xs : list string) :
  existsb (String.eqb option) xs = true <-> In option xs.
Proof.
  rewrite existsb_exists. split.
  - intros (x & Hin & ->%String.eqb_eq). exact Hin.
  - intros Hin. exists option. split; [exact Hin | apply String.eqb_refl].
Qed.

Lemma filter_out_absent option (xs : list string) :
  ~ In option xs ->
  List.filter (fun item => negb (String.eqb item option)) xs = xs.
Proof.
  induction xs as [|x xs IH]; simpl; intros Hno; [reflexivity|].
  destruct (String.eqb_spec x option) as [->|NE]; simpl.
  - destruct Hno. now left.
  - rewrite IH; [reflexivity | tauto].
Qed.

Lemma In_toggle option checked xs item :
  In item (toggle option checked xs) <->
  (item = option /\ checked = true) \/ (item <> option /\ In item xs).
Proof.
  unfold toggle. destruct checked.
  - destruct (existsb (String.eqb option) xs) eqn:E.
    + apply existsb_eqb_In in E.
      destruct (decide (item = option)) as [->|NE]; intuition congruence.
    + rewrite in_app_iff. simpl.
      destruct (decide (item = option)) as [->|NE]; intuition congruence.
  - rewrite filter_In, negb_true_iff, String.eqb_neq. intuition congruence.
Qed.

(** X7. A click on a checkbox keeps a selection without repetitions so: a
    checked option is in the selection afterwards, once, an unchecked
    option is not, and the other options are in it exactly when they were;
    checking an option that was not selected and unchecking it gives the
    selection back. In the class the new selection is stored under the
    field's id (a value that was not an array counts as the empty
    selection) and the error of the field is the result of [validateField]
    on the new selection. *)
Theorem checkbox_change_toggles_option `{Engine} (option : string) (checked : bool)
    (xs : list string) :
  (NoDup xs -> NoDup (toggle option checked xs)) /\
  (forall item,
      In item (toggle option checked xs) <->
      (item = option /\ checked = true) \/ (item <> option /\ In item xs)) /\
  (~ In option xs -> toggle option false (toggle option true xs) = xs) /\
  (forall (st : FormPreview.State) fieldId,
      selection (get (FormPreview.formData st) fieldId) = xs ->
      let st' := fst (FormPreview.handleCheckboxChange fieldId option checked st) in
      let fs := fields (FormPreview.form st) in
      (not_computed fieldId fs ->
       FormPreview.formData st' !! fieldId = Some (VArr (toggle option checked xs))) /\
      (forall field, field_of fieldId fs = Some field ->
         FormPreview.formErrors st' !! fieldId
         = Some (validateField field (VArr (toggle option checked xs))))).
Proof.
  split; [|split; [|split]].
  - intros Hnd. unfold toggle. destruct checked.
    + destruct (existsb (String.eqb option) xs) eqn:E; [exact Hnd|].
      apply NoDup_app. split; [exact Hnd|]. split; [|apply NoDup_singleton].
      intros x Hx [->|[]]%list_elem_of_In.
      apply list_elem_of_In, existsb_eqb_In in Hx. congruence.
    + apply NoDup_ListNoDup, List.NoDup_filter, NoDup_ListNoDup, Hnd.
  - intros item. apply In_toggle.
  - intros Hno. unfold toggle.
    destruct (existsb (String.eqb option) xs) eqn:E.
    + apply existsb_eqb_In in E. contradiction.
    + rewrite List.filter_app, filter_out_absent by exact Hno. simpl.
      rewrite String.eqb_refl. simpl. apply app_nil_r.
  - intros st fieldId Hsel st' fs. subst st'. unfold FormPreview.handleCheckboxChange.
    fold (selection (get (FormPreview.formData st) fieldId)). rewrite Hsel.
    set (st1 := FormPreview.set_formData st _).
    destruct (preview_updateDerivedFields_parts
                (FormPreview.validateField_at fieldId
                   (VArr (toggle option checked xs)) st1)) as (_ & -> & ->).
    destruct (validateField_at_errors fieldId (VArr (toggle option checked xs)) st1)
      as (-> & -> & ->).
    simpl. fold fs. split.
    + intros Hnc. rewrite recompute_frame by exact Hnc. apply lookup_insert_eq.
    + intros field ->. apply lookup_insert_eq.
Qed.

Lemma checkbox_change_toggles_option_witness :
  FormPreview.formData
    (fst (@FormPreview.handleCheckboxChange sample_engine "k" "red" true state_colours))
    !! "k" = Some (VArr ["red"%string]) /\
  FormPreview.formErrors
    (fst (@FormPreview.handleCheckboxChange sample_engine "k" "red" true state_colours))
    !! "k" = Some ""%string.
Proof.
  pose proof (proj2 (proj2 (proj2 (@checkbox_change_toggles_option sample_engine
                "red" true []))) state_colours "k"%string eq_refl) as [Hdata Herr].
  split.
  - apply Hdata. intros f [<-|[<-|[]]] _; reflexivity.
  - apply (Herr field_colours). reflexivity.
Defined.

(** ** Editing the fields *)

Lemma find_filter_other {A} (p q : A -> bool) (l : list A) :
  (forall x, p x = true -> q x = true) ->
  List.find p (List.filter q l) = List.find p l.
Proof.
  intros Hpq. induction l as [|x l IH]; simpl; [reflexivity|].
  destruct (q x) eqn:Hq; simpl.
  - now destruct (p x).
  - destruct (p x) eqn:Hp; [|exact IH]. apply Hpq in Hp. congruence.
Qed.

Lemma find_filter_none {A} (p q : A -> bool) (l : list A) :
  (forall x, p x = true -> q x = false) ->
  List.find p (List.filter q l) = None.
Proof.
  intros Hpq. induction l as [|x l IH]; simpl; [reflexivity|].
  destruct (q x) eqn:Hq; simpl; [|exact IH].
  destruct (p x) eqn:Hp; [|exact IH]. apply Hpq in Hp. congruence.
Qed.

Lemma filter_all {A} (q : A -> bool) (l : list A) :
  (forall x, In x l -> q x = true) -> List.filter q l = l.
Proof.
  induction l as [|x l IH]; simpl; intros Hall; [reflexivity|].
  rewrite (Hall x) by now left. f_equal. apply IH. auto.
Qed.

(** X8. [deleteField] takes out every field of the id and keeps the other
    fields, in their order: no field is found under the id afterwards, what
    is found under another id is what was found before, and a form whose
    fields have one rule of each kind stays so. Deleting the field that
    [addField] has just added, under an id that was not in use, gives the
    fields back. The component's [deleteField] computes the same form. *)
Theorem deleteField_removes_id (fieldId : string) (form : FormSchema) :
  let form' := fst (FormBuilder.deleteField fieldId form) in
  FormBuilder.find_field fieldId (fields form') = None /\
  (forall f, In f (fields form') <-> In f (fields form) /\ field_id f <> fieldId) /\
  (forall other, other <> fieldId ->
     FormBuilder.find_field other (fields form')
     = FormBuilder.find_field other (fields form)) /\
  (well_formed form -> well_formed form') /\
  (~ In fieldId (map field_id (fields form)) ->
   fields (fst (FormBuilder.deleteField fieldId
                  (fst (FormBuilder.addField fieldId form)))) = fields form) /\
  Component.deleteField fieldId form = form'.
Proof.
  simpl. unfold FormBuilder.find_field, same_id.
  split; [|split; [|split; [|split; [|split]]]].
  - apply find_filter_none. intros f ->%String.eqb_eq. now rewrite String.eqb_refl.
  - intros f. rewrite filter_In, negb_true_iff, String.eqb_neq. tauto.
  - intros other Hne. apply find_filter_other.
    intros f ->%String.eqb_eq. now apply negb_true_iff, String.eqb_neq.
  - unfold well_formed. simpl. rewrite !Forall_forall.
    intros Hwf f Hf. apply Hwf. apply list_elem_of_In in Hf.
    apply filter_In in Hf as [Hf _]. now apply list_elem_of_In.
  - intros Hnew. rewrite List.filter_app. simpl. rewrite String.eqb_refl. simpl.
    rewrite app_nil_r. apply filter_all.
    intros f Hf. apply negb_true_iff, String.eqb_neq. intros E.
    apply Hnew. rewrite <- E. now apply in_map.
  - reflexivity.
Qed.

Lemma deleteField_removes_id_witness :
  fields (fst (FormBuilder.deleteField "f9"
                 (fst (FormBuilder.addField "f9" form_one_field))))
  = fields form_one_field.
Proof.
  apply (proj1 (proj2 (proj2 (proj2 (proj2
           (deleteField_removes_id "f9" form_one_field)))))).
  intros [[=]|[]].
Defined.

Lemma update_found_same fieldId change change' fs field :
  FormBuilder.find_field fieldId fs = Some field ->
  change field = change' field ->
  FormBuilder.update_found fieldId change fs
  = FormBuilder.update_found fieldId change' fs.
Proof.
  unfold FormBuilder.find_field.
  induction fs as [|f fs IH]; simpl; intros Hfind Hsame; [reflexivity|].
  destruct (same_id fieldId f).
  - injection Hfind as ->. now rewrite Hsame.
  - f_equal. now apply IH.
Qed.

Lemma update_found_unchanged fieldId fs :
  FormBuilder.update_found fieldId (fun f => f) fs = fs.
Proof.
  induction fs as [|f fs IH]; simpl; [reflexivity|].
  destruct (same_id fieldId f); [reflexivity | now rewrite IH].
Qed.

Lemma update_found_twice fieldId first second fs :
  (forall f, field_id (first f) = field_id f) ->
  FormBuilder.update_found fieldId second (FormBuilder.update_found fieldId first fs)
  = FormBuilder.update_found fieldId (fun f => second (first f)) fs.
Proof.
  intros Hid. induction fs as [|f fs IH]; simpl; [reflexivity|].
  destruct (same_id fieldId f) eqn:E; simpl.
  - unfold same_id in *. now rewrite Hid, E.
  - rewrite E. now rewrite IH.
Qed.

Lemma set_validations_same field : set_validations field (validations field) = field.
Proof. now destruct field. Qed.

Lemma delete_out_of_range {A} (l : list A) (index : nat) :
  length l <= index -> delete index l = l.
Proof.
  revert index. induction l as [|x l IH]; intros index; simpl.
  - now destruct index.
  - destruct index as [|index]; simpl; [lia|]. intros Hlen. f_equal. apply IH. lia.
Qed.

Lemma delete_last {A} (l : list A) (x : A) : delete (length l) (l ++ [x]) = l.
Proof. induction l as [|y l IH]; simpl; [reflexivity | now rewrite IH]. Qed.

Lemma filter_index_keeps_all {A} (keep : nat -> bool) (start : nat) (l : list A) :
  (forall i, (start <= i)%nat -> keep i = true) ->
  Component.filter_index keep start l = l.
Proof.
  revert start. induction l as [|x l IH]; intros start Hkeep; simpl; [reflexivity|].
  rewrite Hkeep by lia. f_equal. apply IH. intros i Hi. apply Hkeep. lia.
Qed.

Lemma filter_index_delete {A} (index start : nat) (l : list A) :
  Component.filter_index (fun i => negb (i =? start + index)%nat) start l
  = delete index l.
Proof.
  revert index start. induction l as [|x l IH]; intros index start; simpl.
  - now destruct index.
  - destruct index as [|index]; simpl.
    + rewrite Nat.add_0_r, Nat.eqb_refl. simpl.
      apply filter_index_keeps_all. intros i Hi.
      apply negb_true_iff, Nat.eqb_neq. lia.
    + destruct (Nat.eqb_spec start (start + S index)) as [E|_]; [lia|]. simpl.
      f_equal. replace (start + S index)%nat with (S start + index)%nat by lia.
      apply IH.
Qed.

Lemma NoDup_delete_kinds index (rules : list ValidationRule) :
  NoDup (map rule_type rules) -> NoDup (map rule_type (delete index rules)).
Proof.
  revert index. induction rules as [|r rules IH]; intros index; simpl.
  - now destruct index.
  - intros [Hr Hnd]%NoDup_cons. destruct index as [|index]; simpl; [exact Hnd|].
    apply NoDup_cons. split; [|now apply IH].
    intros Hin. apply Hr. apply list_elem_of_In in Hin. apply list_elem_of_In.
    apply in_map_iff in Hin as (v & Hv & Hin). apply in_map_iff. exists v.
    split; [exact Hv|].
    apply list_elem_of_In. apply list_elem_of_In in Hin.
    eapply list_elem_of_delete_inv. exact Hin.
Qed.

Lemma kind_gone_after_delete index (rules : list ValidationRule) rule :
  NoDup (map rule_type rules) -> rules !! index = Some rule ->
  ~ In (rule_type rule) (map rule_type (delete index rules)).
Proof.
  revert index. induction rules as [|r rules IH]; intros index; simpl.
  - intros _ Hl. now rewrite lookup_nil in Hl.
  - intros [Hr Hnd]%NoDup_cons. destruct index as [|index]; simpl.
    + intros [= ->]. now rewrite <- list_elem_of_In.
    + intros Hl [E|Hin]; [|now apply (IH index Hnd Hl)].
      apply Hr. rewrite E. apply list_elem_of_In, in_map.
      apply list_elem_of_In. eapply list_elem_of_lookup_2. exact Hl.
Qed.

(** X9. On a field that is found, [removeValidation] takes the rule at the
    index out of the field's rules and leaves them as they are when there
    is no rule at the index; the component's [filter] on the position gives
    the same rules. A form with one rule of each kind stays so; after the
    removal the field has no rule of the removed kind, so that this kind
    can be added again; and removing the rule that [addValidation] has just
    appended gives the fields back. *)
Theorem removeValidation_takes_one_rule (form : FormSchema) (fieldId : string)
    (index : nat) (field : FormField) :
  FormBuilder.find_field fieldId (fields form) = Some field ->
  let form' := fst (FormBuilder.removeValidation fieldId index form) in
  FormBuilder.find_field fieldId (fields form')
  = Some (set_validations field (delete index (validations field))) /\
  Component.filter_index (fun i => negb (i =? index)%nat) 0 (validations field)
  = delete index (validations field) /\
  (length (validations field) <= index -> fields form' = fields form) /\
  (well_formed form -> well_formed form') /\
  (well_formed form ->
   forall rule, validations field !! index = Some rule ->
     has_validation (rule_type rule)
       (set_validations field (delete index (validations field))) = false) /\
  (forall type,
      has_validation type field = false ->
      fields (fst (FormBuilder.removeValidation fieldId (length (validations field))
                     (fst (FormBuilder.addValidation fieldId type form))))
      = fields form).
Proof.
  intros Hfind. simpl. unfold FormBuilder.removeValidation. rewrite Hfind. simpl.
  split; [|split; [|split; [|split; [|split]]]].
  - rewrite find_update_found by reflexivity.
    now rewrite String.eqb_refl, Hfind.
  - apply (filter_index_delete index 0).
  - intros Hlen.
    rewrite (update_found_same fieldId _ (fun f => f) _ field Hfind).
    + apply update_found_unchanged.
    + rewrite delete_out_of_range by exact Hlen. apply set_validations_same.
  - unfold well_formed. simpl. intros Hwf.
    apply (Forall_update_found _ _ _ _ field Hfind); [|exact Hwf].
    unfold one_rule_per_kind. simpl. apply NoDup_delete_kinds.
    rewrite Forall_forall in Hwf. apply Hwf.
    apply find_some in Hfind as [Hin _]. now apply list_elem_of_In.
  - intros Hwf rule Hrule. apply has_validation_absent. unfold kinds. simpl.
    apply kind_gone_after_delete; [|exact Hrule].
    unfold well_formed in Hwf. rewrite Forall_forall in Hwf. apply Hwf.
    apply find_some in Hfind as [Hin _]. now apply list_elem_of_In.
  - intros type Hhas. unfold FormBuilder.addValidation. rewrite Hfind, Hhas. simpl.
    rewrite find_update_found by reflexivity.
    rewrite String.eqb_refl, Hfind. simpl.
    rewrite update_found_twice by reflexivity.
    rewrite (update_found_same fieldId _ (fun f => f) _ field Hfind).
    + apply update_found_unchanged.
    + simpl. rewrite delete_last. now destruct field.
Qed.

Lemma removeValidation_takes_one_rule_witness :
  FormBuilder.find_field "f1"
    (fields (fst (FormBuilder.removeValidation "f1" 0
                    (set_fields form_one_field [field_required_minLength]))))
  = Some (set_validations (new_field "f1") [minLength3]) /\
  fields (fst (FormBuilder.removeValidation "f1" 0
                 (fst (FormBuilder.addValidation "f1" email form_one_field))))
  = fields form_one_field.
Proof.
  split.
  - apply (proj1 (removeValidation_takes_one_rule
             (set_fields form_one_field [field_required_minLength]) "f1" 0
             field_required_minLength eq_refl)).
  - apply (proj2 (proj2 (proj2 (proj2 (proj2 (removeValidation_takes_one_rule
             form_one_field "f1" 0 (new_field "f1") eq_refl))))) email).
    reflexivity.
Defined.

(** *** Options written as a text *)

Lemma append_nil_r (s : string) : s +:+ "" = s.
Proof. induction s as [|c s IH]; simpl; [reflexivity | now rewrite IH]. Qed.

Lemma split_shape sep s : exists piece rest, split sep s = piece :: rest.
Proof.
  induction s as [|c s (piece & rest & IH)]; simpl; [eauto|].
  destruct (Ascii.eqb c sep); [eauto|]. rewrite IH. eauto.
Qed.

Lemma split_pieces sep s : Forall (fun piece => occurs sep piece = false) (split sep s).
Proof.
  induction s as [|c s IH]; simpl; [now repeat constructor|].
  destruct (Ascii.eqb_spec c sep) as [E|NE]; [now constructor|].
  destruct (split_shape sep s) as (piece & rest & E). rewrite E in *.
  apply Forall_cons in IH as [Hp Hrest]. constructor; [|exact Hrest].
  unfold occurs, is_char in *. simpl. rewrite Hp.
  destruct (Ascii.eqb_spec sep c); [congruence | reflexivity].
Qed.

Lemma split_at_separator sep o r :
  occurs sep o = false -> split sep (o +:+ String sep r) = o :: split sep r.
Proof.
  unfold occurs, is_char. induction o as [|c o IH]; simpl; intros Hno.
  - now rewrite Ascii.eqb_refl.
  - apply orb_false_iff in Hno as [Hc Ho].
    rewrite Ascii.eqb_sym, Hc, IH by exact Ho. reflexivity.
Qed.

Lemma split_without_separator sep o : occurs sep o = false -> split sep o = [o].
Proof.
  unfold occurs, is_char. induction o as [|c o IH]; simpl; intros Hno; [reflexivity|].
  apply orb_false_iff in Hno as [Hc Ho].
  now rewrite Ascii.eqb_sym, Hc, IH.
Qed.

Lemma trimStart_occurs c s : occurs c s = false -> occurs c (trimStart s) = false.
Proof.
  unfold occurs. induction s as [|a s IH]; simpl; [reflexivity|].
  intros [Ha Hs]%orb_false_iff. destruct (is_space a); [auto|].
  simpl. now rewrite Ha, Hs.
Qed.

Lemma trimEnd_occurs c s : occurs c s = false -> occurs c (trimEnd s) = false.
Proof.
  unfold occurs. induction s as [|a s IH]; simpl; [reflexivity|].
  intros [Ha Hs]%orb_false_iff. specialize (IH Hs).
  destruct (trimEnd s) as [|b rest].
  - destruct (is_space a); simpl; [reflexivity | now rewrite Ha].
  - simpl in *. now rewrite Ha, IH.
Qed.

Lemma headed_trimStart s : headed (trimStart s) = true.
Proof.
  induction s as [|c s IH]; simpl; [reflexivity|].
  destruct (is_space c) eqn:E; [exact IH | simpl; now rewrite E].
Qed.

Lemma trimStart_headed s : headed s = true -> trimStart s = s.
Proof.
  destruct s as [|c s]; simpl; [reflexivity|].
  now intros ->%negb_true_iff.
Qed.

Lemma headed_trimEnd s : headed s = true -> headed (trimEnd s) = true.
Proof.
  destruct s as [|c s]; simpl; [reflexivity|].
  intros Hc. destruct (trimEnd s); [|exact Hc].
  apply negb_true_iff in Hc. rewrite Hc. simpl. now rewrite Hc.
Qed.

Lemma trimEnd_idempotent s : trimEnd (trimEnd s) = trimEnd s.
Proof.
  induction s as [|c s IH]; simpl; [reflexivity|].
  destruct (trimEnd s) as [|b rest] eqn:E.
  - destruct (is_space c) eqn:Hc; simpl; [reflexivity | now rewrite Hc].
  - simpl in *. now rewrite IH.
Qed.

Lemma trim_idempotent s : trim (trim s) = trim s.
Proof.
  unfold trim.
  rewrite (trimStart_headed (trimEnd (trimStart s)))
    by apply headed_trimEnd, headed_trimStart.
  apply trimEnd_idempotent.
Qed.

Lemma trim_occurs c s : occurs c s = false -> occurs c (trim s) = false.
Proof. intros Hs. now apply trimEnd_occurs, trimStart_occurs. Qed.

Lemma join_cons sep x xs : join sep (x :: xs) = x +:+ join_rest sep xs.
Proof. destruct xs; simpl; [now rewrite append_nil_r | reflexivity]. Qed.

Lemma split_join_rest (rest : list string) (o : string) :
  occurs "," o = false -> Forall clean_option rest ->
  map trim (split "," (o +:+ join_rest ", " rest)) = trim o :: rest.
Proof.
  intros Ho Hrest. revert o Ho.
  induction Hrest as [|o2 rest (Hne & Htrim & Hcomma) _ IH]; intros o Ho.
  - simpl. now rewrite append_nil_r, split_without_separator.
  - unfold join_rest. rewrite join_cons.
    change (", " +:+ o2 +:+ join_rest ", " rest)%string
      with (String "," (String " " o2 +:+ join_rest ", " rest)).
    rewrite split_at_separator by exact Ho. cbn [map]. f_equal.
    transitivity (trim (String " " o2) :: rest).
    + apply (IH (String " " o2)). exact Hcomma.
    + f_equal. exact Htrim.
Qed.

(** X10. The options read from a text ([split] at the commas, [trim],
    drop the empty pieces) are never empty, have no white space at their
    ends and hold no comma. Reading back the text that the editor shows for
    such options (they joined with a comma and a space) gives the same
    options, in the same order. The class stores the options read in the
    field that it finds under the id, the component in the field of the
    editor. *)
Theorem options_text_round_trip (value : string) :
  Forall clean_option (parse_options value) /\
  (forall opts, Forall clean_option opts -> parse_options (join ", " opts) = opts) /\
  (forall form fieldId field,
      FormBuilder.find_field fieldId (fields form) = Some field ->
      FormBuilder.find_field fieldId
        (fields (fst (FormBuilder.updateField_options fieldId value form)))
      = Some (set_options field (parse_options value))) /\
  (forall form index field,
      fields form !! index = Some field ->
      fields (Component.change_options field value form) !! index
      = Some (set_options field (parse_options value))).
Proof.
  split; [|split; [|split]].
  - unfold parse_options. rewrite Forall_forall. intros o Ho.
    apply list_elem_of_In, filter_In in Ho as [Ho Hne].
    apply in_map_iff in Ho as (piece & <- & Hpiece).
    split; [now apply nonempty_true|]. split; [apply trim_idempotent|].
    apply trim_occurs.
    pose proof (split_pieces "," value) as Hall. rewrite Forall_forall in Hall.
    apply Hall. now apply list_elem_of_In.
  - intros opts Hopts. unfold parse_options. destruct opts as [|o rest]; [reflexivity|].
    apply Forall_cons in Hopts as [(Hne & Htrim & Hcomma) Hrest].
    rewrite join_cons, split_join_rest, Htrim by assumption.
    apply filter_all. intros x [<-|Hx]; [now apply nonempty_true|].
    rewrite Forall_forall in Hrest. apply list_elem_of_In, Hrest in Hx.
    apply nonempty_true, Hx.
  - intros form fieldId field Hfind. unfold FormBuilder.updateField_options.
    rewrite Hfind. simpl. rewrite find_update_found by reflexivity.
    now rewrite String.eqb_refl, Hfind.
  - intros form index field Hi. unfold Component.change_options. simpl.
    rewrite list_lookup_fmap, Hi. simpl. now rewrite String.eqb_refl.
Qed.

Example parse_options_example :
  parse_options " red , green,, blue ,"%string = ["red"; "green"; "blue"]%string.
Proof. reflexivity. Qed.

Lemma options_text_round_trip_witness :
  parse_options (join ", " (options field_sizes)) = options field_sizes.
Proof.
  apply (proj1 (proj2 (options_text_round_trip ""))).
  repeat constructor; discriminate.
Defined.

(** X15. The save dialog saves nothing, and only shows a notice, when the
    name is blank (empty after [trim]) or the form has no field; otherwise
    it appends one form to the saved forms, under the given id, with the
    trimmed name and the current fields. So every form that it adds has a
    name that is not empty and has no white space at its ends, and at least
    one field. *)
Theorem save_dialog_stores_trimmed_name (formName id now : string)
    (st : Component.State) :
  let st' := fst (Component.SaveModal_handleSave formName id now st) in
  Component.currentForm st' = Component.currentForm st /\
  (trim formName = ""%string \/ fields (Component.currentForm st) = [] ->
   Component.savedFormsStorage st' = Component.savedFormsStorage st /\
   exists notice, snd (Component.SaveModal_handleSave formName id now st) = [Alert notice] /\
                  notice <> "Form saved successfully!"%string) /\
  (trim formName <> ""%string -> fields (Component.currentForm st) <> [] ->
   Component.savedFormsStorage st'
   = Component.savedFormsStorage st
     ++ [{| form_id := id; form_name := trim formName;
            fields := fields (Component.currentForm st); createdAt := now |}]) /\
  (forall form,
      In form (Component.savedFormsStorage st') ->
      In form (Component.savedFormsStorage st) \/
      (form_id form = id /\ form_name form <> ""%string /\
       trim (form_name form) = form_name form /\ fields form <> [])).
Proof.
  simpl. unfold Component.SaveModal_handleSave, Component.saveForm.
  destruct (nonempty (trim formName)) eqn:Hname.
  - apply nonempty_true in Hname.
    destruct (fields (Component.currentForm st)) as [|f fs] eqn:Hfs; simpl.
    + split; [reflexivity|]. split; [|split].
      * intros _. split; [reflexivity|]. eexists. split; [reflexivity | discriminate].
      * congruence.
      * auto.
    + split; [reflexivity|]. split; [|split].
      * intros [E|E]; congruence.
      * reflexivity.
      * intros form. unfold Component.StorageManager_saveForm.
        rewrite in_app_iff. intros [Hin|[<-|[]]]; [now left|]. right. simpl.
        split; [reflexivity|]. split; [exact Hname|].
        split; [apply trim_idempotent | discriminate].
  - apply not_true_iff_false in Hname. rewrite nonempty_true in Hname.
    simpl. split; [reflexivity|]. split; [|split].
    + intros _. split; [reflexivity|]. eexists. split; [reflexivity | discriminate].
    + intros Hne. destruct Hname. exact Hne.
    + auto.
Qed.

Lemma save_dialog_stores_trimmed_name_witness :
  Component.savedFormsStorage
    (fst (Component.SaveModal_handleSave "  Survey " "7" "now" state_editing))
  = [{| form_id := "7"; form_name := "Survey";
        fields := [new_field "f1"]; createdAt := "now" |}] /\
  Component.savedFormsStorage
    (fst (Component.SaveModal_handleSave "   " "7" "now" state_editing)) = [].
Proof.
  split.
  - apply (proj1 (proj2 (proj2
             (save_dialog_stores_trimmed_name "  Survey " "7" "now" state_editing))));
      discriminate.
  - apply (proj1 (proj2
             (save_dialog_stores_trimmed_name "   " "7" "now" state_editing))).
    now left.
Defined.

(** ** Further properties of the saved forms *)

(** X11. In the store kept in memory, [deleteForm] takes out every form of
    the id: loading by this id finds nothing afterwards, loading by another
    id finds what it found before, and nothing changes when no saved form
    has the id. Deleting by the id of a form that was just saved removes
    this form together with the earlier forms of the same id. *)
Theorem deleteForm_removes_all_of_id (formId : string) (storage : list FormSchema) :
  let storage' := Component.StorageManager_deleteForm formId storage in
  Component.StorageManager_getFormById formId storage' = None /\
  (forall other, other <> formId ->
     Component.StorageManager_getFormById other storage'
     = Component.StorageManager_getFormById other storage) /\
  (id_is_new formId storage -> storage' = storage) /\
  (forall form, form_id form = formId ->
     Component.StorageManager_deleteForm formId
       (Component.StorageManager_saveForm form storage) = storage').
Proof.
  simpl. unfold Component.StorageManager_getFormById,
    Component.StorageManager_deleteForm, Component.StorageManager_saveForm.
  split; [|split; [|split]].
  - apply find_filter_none. intros f ->%String.eqb_eq. now rewrite String.eqb_refl.
  - intros other Hne. apply find_filter_other.
    intros f ->%String.eqb_eq. now apply negb_true_iff, String.eqb_neq.
  - intros Hnew. apply filter_all. unfold id_is_new in Hnew.
    rewrite Forall_forall in Hnew. intros f Hf.
    apply negb_true_iff, String.eqb_neq, Hnew. now apply list_elem_of_In.
  - intros form <-. rewrite List.filter_app. simpl.
    rewrite String.eqb_refl. simpl. apply app_nil_r.
Qed.

Lemma deleteForm_removes_all_of_id_witness :
  Component.StorageManager_deleteForm "2" [form_old] = [form_old] /\
  Component.StorageManager_deleteForm "1"
    (Component.StorageManager_saveForm form_new [form_old; form_other]) = [form_other].
Proof.
  split.
  - apply (proj1 (proj2 (proj2 (deleteForm_removes_all_of_id "2" [form_old])))).
    repeat constructor. discriminate.
  - apply (proj2 (proj2 (proj2 (deleteForm_removes_all_of_id "1"
             [form_old; form_other]))) form_new).
    reflexivity.
Defined.

Lemma getSavedForms_insert forms (ls : StorageManager.LocalStorage) :
  StorageManager.getSavedForms
    (<[StorageManager.SAVED_FORMS := StorageManager.FormsJson forms]> ls) = inl forms.
Proof. unfold StorageManager.getSavedForms. now rewrite lookup_insert_eq. Qed.

(** X12. In [localStorage], a save that returns has appended the form to
    the forms read before, in their order, and has written under no other
    key; loading by an id then gives the first of the earlier forms with
    this id, or the new form when there is none and the id is its own. A
    save that throws does so with the message [Failed to save form], and
    only when the stored text is not an array or the write is refused. A
    stored text that [JSON.parse] cannot read counts as no forms: the save
    replaces it by the array of the new form alone. *)
Theorem local_save_outcomes `{StorageManager.Quota} (form : FormSchema)
    (ls : StorageManager.LocalStorage) :
  match StorageManager.saveForm form ls with
  | StorageManager.Ok ls' =>
      StorageManager.getSavedForms ls' = inl (StorageManager.saved ls ++ [form]) /\
      (forall key, key <> StorageManager.SAVED_FORMS -> ls' !! key = ls !! key) /\
      (forall formId,
          StorageManager.getFormById formId ls'
          = StorageManager.Ok
              match find_form formId (StorageManager.saved ls) with
              | Some earlier => Some earlier
              | None => if String.eqb (form_id form) formId then Some form else None
              end)
  | StorageManager.Throws msg =>
      msg = "Failed to save form"%string /\
      ((exists other, StorageManager.getSavedForms ls = inr other) \/
       StorageManager.accepts ls StorageManager.SAVED_FORMS
         (StorageManager.FormsJson (StorageManager.saved ls ++ [form])) = false)
  end /\
  (ls !! StorageManager.SAVED_FORMS = Some StorageManager.NotJson ->
   StorageManager.accepts ls StorageManager.SAVED_FORMS
     (StorageManager.FormsJson [form]) = true ->
   StorageManager.saveForm form ls
   = StorageManager.Ok
       (<[StorageManager.SAVED_FORMS := StorageManager.FormsJson [form]]> ls)).
Proof.
  split.
  - unfold StorageManager.saveForm, StorageManager.saved.
    destruct (StorageManager.getSavedForms ls) as [savedForms|other] eqn:Hs.
    + destruct (StorageManager.accepts _ _ _) eqn:Ha.
      * split; [apply getSavedForms_insert|]. split.
        -- intros key Hne. now apply lookup_insert_ne.
        -- intros formId. unfold StorageManager.getFormById.
           rewrite getSavedForms_insert, find_app_last. reflexivity.
      * split; [reflexivity | now right].
    + split; [reflexivity|]. left. eauto.
  - intros Hbad Hacc. unfold StorageManager.saveForm, StorageManager.getSavedForms.
    rewrite Hbad. simpl. now rewrite Hacc.
Qed.

Lemma local_save_outcomes_witness :
  @StorageManager.saveForm StorageManager.unlimited form_other
    (<[StorageManager.SAVED_FORMS := StorageManager.NotJson]> ∅)
  = StorageManager.Ok
      (<[StorageManager.SAVED_FORMS := StorageManager.FormsJson [form_other]]>
         (<[StorageManager.SAVED_FORMS := StorageManager.NotJson]> ∅)).
Proof.
  apply (proj2 (@local_save_outcomes StorageManager.unlimited form_other
           (<[StorageManager.SAVED_FORMS := StorageManager.NotJson]> ∅)));
    reflexivity.
Defined.

(** X13. In [localStorage], a delete that returns has written the forms
    read before without those of the id, also when nothing was stored,
    and has written under no other key: loading by the id then finds
    nothing, and loading by another id finds what was found among the
    forms read before. A delete that throws does so with the message
    [Failed to delete form]. *)
Theorem local_delete_outcomes `{StorageManager.Quota} (formId : string)
    (ls : StorageManager.LocalStorage) :
  match StorageManager.deleteForm formId ls with
  | StorageManager.Ok ls' =>
      ls' !! StorageManager.SAVED_FORMS
      = Some (StorageManager.FormsJson (without_id formId (StorageManager.saved ls))) /\
      (forall key, key <> StorageManager.SAVED_FORMS -> ls' !! key = ls !! key) /\
      StorageManager.getFormById formId ls' = StorageManager.Ok None /\
      (forall other, other <> formId ->
         StorageManager.getFormById other ls'
         = StorageManager.Ok (find_form other (StorageManager.saved ls)))
  | StorageManager.Throws msg =>
      msg = "Failed to delete form"%string /\
      ((exists other, StorageManager.getSavedForms ls = inr other) \/
       StorageManager.accepts ls StorageManager.SAVED_FORMS
         (StorageManager.FormsJson (without_id formId (StorageManager.saved ls)))
       = false)
  end.
Proof.
  unfold StorageManager.deleteForm, StorageManager.updateSavedForms,
    StorageManager.saved.
  destruct (StorageManager.getSavedForms ls) as [savedForms|other] eqn:Hs.
  - fold (without_id formId savedForms).
    destruct (StorageManager.accepts _ _ _) eqn:Ha.
    + split; [apply lookup_insert_eq|]. split; [|split].
      * intros key Hne. now apply lookup_insert_ne.
      * unfold StorageManager.getFormById. rewrite getSavedForms_insert. f_equal.
        apply find_filter_none.
        intros f ->%String.eqb_eq. now rewrite String.eqb_refl.
      * intros other Hne. unfold StorageManager.getFormById.
        rewrite getSavedForms_insert. f_equal. apply find_filter_other.
        intros f ->%String.eqb_eq. now apply negb_true_iff, String.eqb_neq.
    + split; [reflexivity | now right].
  - split; [reflexivity|]. left. eauto.
Qed.

Lemma local_delete_outcomes_witness :
  exists ls',
    @StorageManager.deleteForm StorageManager.unlimited "1" storage_one_form
    = StorageManager.Ok ls' /\
    StorageManager.getFormById "1" ls' = StorageManager.Ok None /\
    StorageManager.getFormById "2" ls' = StorageManager.Ok None.
Proof.
  pose proof (@local_delete_outcomes StorageManager.unlimited "1" storage_one_form)
    as Hd.
  destruct (@StorageManager.deleteForm StorageManager.unlimited "1" storage_one_form)
    as [ls'|msg] eqn:E; [|vm_compute in E; discriminate E].
  exists ls'. destruct Hd as (_ & _ & Hgone & Hother).
  split; [reflexivity|]. split; [exact Hgone|].
  apply (Hother "2"%string). discriminate.
Defined.

Lemma autoSave_parts `{StorageManager.Quota} form (ls : StorageManager.LocalStorage) :
  fst (StorageManager.autoSaveCurrentForm form ls) = ls \/
  (fields form <> [] /\
   StorageManager.accepts ls StorageManager.CURRENT_FORM (StorageManager.FormJson form)
   = true /\
   fst (StorageManager.autoSaveCurrentForm form ls)
   = <[StorageManager.CURRENT_FORM := StorageManager.FormJson form]> ls).
Proof.
  unfold StorageManager.autoSaveCurrentForm.
  destruct (fields form) eqn:Hf; [now left|].
  destruct (StorageManager.accepts _ _ _) eqn:Ha; [|now left].
  right. split; [discriminate | auto].
Qed.

(** X14. The automatic save writes the current form only when it has a
    field and the write is accepted, and otherwise leaves the storage as it
    is; it never changes the saved forms. What it has written is what
    [loadAutoSavedForm] reads and what the builder starts from; after
    [clearAutoSave] nothing is read and the builder keeps its own form. *)
Theorem autosave_round_trip `{StorageManager.Quota} (form : FormSchema)
    (ls : StorageManager.LocalStorage) :
  let ls' := fst (StorageManager.autoSaveCurrentForm form ls) in
  (fields form <> [] ->
   StorageManager.accepts ls StorageManager.CURRENT_FORM (StorageManager.FormJson form)
   = true ->
   StorageManager.loadAutoSavedForm ls' = Some (inr form) /\
   forall currentForm, FormBuilder_loadAutoSavedForm ls' currentForm = inr form) /\
  (fields form = [] \/
   StorageManager.accepts ls StorageManager.CURRENT_FORM (StorageManager.FormJson form)
   = false -> ls' = ls) /\
  StorageManager.getSavedForms ls' = StorageManager.getSavedForms ls /\
  StorageManager.loadAutoSavedForm (StorageManager.clearAutoSave ls') = None /\
  (forall currentForm,
      FormBuilder_loadAutoSavedForm (StorageManager.clearAutoSave ls') currentForm
      = inr currentForm).
Proof.
  simpl. split; [|split; [|split; [|split]]].
  - intros Hf Ha.
    destruct (autoSave_parts form ls) as [E|(_ & _ & ->)].
    + unfold StorageManager.autoSaveCurrentForm in *.
      destruct (fields form); [congruence|]. rewrite Ha in *. simpl in *.
      unfold FormBuilder_loadAutoSavedForm, StorageManager.loadAutoSavedForm.
      now rewrite lookup_insert_eq.
    + unfold FormBuilder_loadAutoSavedForm, StorageManager.loadAutoSavedForm.
      now rewrite lookup_insert_eq.
  - intros Hno. destruct (autoSave_parts form ls) as [E|(Hf & Ha & _)]; [exact E|].
    destruct Hno; congruence.
  - destruct (autoSave_parts form ls) as [->|(_ & _ & ->)]; [reflexivity|].
    unfold StorageManager.getSavedForms. now rewrite lookup_insert_ne.
  - unfold StorageManager.loadAutoSavedForm, StorageManager.clearAutoSave.
    now rewrite lookup_delete_eq.
  - intros currentForm.
    unfold FormBuilder_loadAutoSavedForm, StorageManager.loadAutoSavedForm,
      StorageManager.clearAutoSave.
    now rewrite lookup_delete_eq.
Qed.

Lemma autosave_round_trip_witness :
  StorageManager.loadAutoSavedForm
    (fst (@StorageManager.autoSaveCurrentForm StorageManager.unlimited
            form_new storage_one_form)) = Some (inr form_new) /\
  fst (@StorageManager.autoSaveCurrentForm StorageManager.unlimited
         FormBuilder.createEmptyForm storage_one_form) = storage_one_form.
Proof.
  split.
  - apply (proj1 (@autosave_round_trip StorageManager.unlimited form_new
             storage_one_form)); [discriminate | reflexivity].
  - apply (proj1 (proj2 (@autosave_round_trip StorageManager.unlimited
             FormBuilder.createEmptyForm storage_one_form))).
    now left.
Defined.
